(** * Scoring, profiling and recommendation pipeline of student-performance-ai

    A shallow embedding of [src/config.py], [src/scoring.py],
    [src/profiling.py] and [src/recommendations.py].

    Conventions of the embedding:
    - a Python [float] is an exact rational ([Q]); finite values only;
    - a pandas [DataFrame] is its header (the list of column names) together
      with its rows, and a derived table is the list of its typed rows;
    - [Series.round(d)] rounds [x * 10^d] to the nearest integer, halves to
      the even one, and divides by [10^d];
    - [list.sort(key=...)] is a stable sort; [DataFrame.sort_values] is
      modelled by the same stable sort (on the small frames the pipeline
      handles, numpy's default sort is an insertion sort);
    - a raised exception is the left injection of a sum type. *)

From Stdlib Require Import ZArith QArith Qround Qabs Lqa Lia.
From Stdlib Require Import List Bool String Ascii DecimalString.
From Stdlib Require Import Sorted Permutation.
Import ListNotations.

Local Open Scope Z_scope.

(** ** Python exceptions *)

Inductive exn : Type :=
| ValueError (msg : string)
| KeyError (columns : list string).

Definition result (A : Type) : Type := (exn + A)%type.

Definition raise {A : Type} (e : exn) : result A := inl e.
Definition ret {A : Type} (a : A) : result A := inr a.

Definition bind {A B : Type} (m : result A) (k : A -> result B) : result B :=
  match m with
  | inl e => inl e
  | inr a => k a
  end.

Notation "x <- m ;; k" := (bind m (fun x => k))
  (at level 61, m at next level, right associativity).

(** ** Numbers *)

(** Nearest integer, halves to even: numpy's [rint], Python's [round]. *)
Definition rint (q : Q) : Z :=
  let f := Qfloor q in
  match Qcompare (q - inject_Z f) (1 # 2) with
  | Lt => f
  | Gt => f + 1
  | Eq => if Z.even f then f else f + 1
  end.

(** [Series.round(4)] and [Series.round(2)]. *)
Definition round4 (q : Q) : Q := Qmake (rint (q * 10000)) 10000.
Definition round2 (q : Q) : Q := Qmake (rint (q * 100)) 100.

Definition Qsum (l : list Q) : Q := fold_right Qplus 0%Q l.
Definition Zsum (l : list Z) : Z := fold_right Z.add 0 l.

Definition Zlength_of {A : Type} (l : list A) : Z := Z.of_nat (List.length l).

(** Mean of a non-empty column of floats. *)
Definition mean (l : list Q) : Q := (Qsum l / inject_Z (Zlength_of l))%Q.

Definition string_of_Z (z : Z) : string := NilZero.string_of_int (Z.to_int z).

(** The format specifications [.0f] and [.0%]. *)
Definition format_f0 (q : Q) : string :=
  let z := rint q in
  if andb (Qle_bool q 0) (andb (negb (Qeq_bool q 0)) (z =? 0))
  then "-0"%string else string_of_Z z.

Definition format_pct0 (q : Q) : string :=
  (format_f0 (q * 100) ++ "%")%string.

(** ** A stable sort: [list.sort] and [sort_values] *)

Section StableSort.
Context {A : Type}.
Variable leb : A -> A -> bool.

Fixpoint insert_stable (x : A) (l : list A) : list A :=
  match l with
  | [] => [x]
  | y :: l' => if leb x y then x :: y :: l' else y :: insert_stable x l'
  end.

Definition stable_sort (l : list A) : list A :=
  fold_right insert_stable [] l.
End StableSort.

(** ** config.py *)

Module config.

Definition STRENGTH_ACCURACY_THRESHOLD : Q := 80 # 100.
Definition WEAKNESS_ACCURACY_THRESHOLD : Q := 55 # 100.

Inductive level : Type := beginner | intermediate | advanced.

(** The dict is iterated in insertion order: an association list. *)
Definition LEVEL_BANDS : list (level * (Q * Q)) :=
  [ (beginner, (0 # 100, 50 # 100));
    (intermediate, (50 # 100, 75 # 100));
    (advanced, (75 # 100, 101 # 100)) ].

End config.

(** ** The tables produced by scoring *)

Record TopicScoreRow : Type := mkTopicScoreRow {
  ts_student_id : string;
  ts_topic : string;
  topic_n_questions : Z;
  topic_accuracy : Q;
  topic_avg_time_seconds : Q;
  topic_avg_confidence : Q
}.

Record OverallRow : Type := mkOverallRow {
  ov_student_id : string;
  overall_n_questions : Z;
  overall_accuracy : Q;
  overall_avg_time_seconds : Q;
  overall_avg_confidence : Q
}.

Record ErrorShareRow : Type := mkErrorShareRow {
  es_student_id : string;
  es_topic : string;
  es_error_type : string;
  error_share : Q
}.

(** ** profiling.py *)

Module profiling.
Import config.

Inductive label : Type := strength | weakness | neutral.

Definition label_eqb (a b : label) : bool :=
  match a, b with
  | strength, strength | weakness, weakness | neutral, neutral => true
  | _, _ => false
  end.

Record TopicProfile : Type := mkTopicProfile {
  tp_topic : string;
  tp_accuracy : Q;
  tp_avg_time_seconds : Q;
  tp_n_questions : Z;
  tp_level : level;
  tp_label : label
}.

Record StudentProfile : Type := mkStudentProfile {
  sp_student_id : string;
  sp_overall_accuracy : Q;
  sp_overall_avg_time_seconds : Q;
  sp_overall_n_questions : Z;
  sp_overall_level : level;
  strengths : list TopicProfile;
  weaknesses : list TopicProfile;
  neutrals : list TopicProfile
}.

(** [lo <= acc < hi] *)
Definition in_band (lo hi acc : Q) : bool :=
  andb (Qle_bool lo acc) (negb (Qle_bool hi acc)).

(** The loop of [_accuracy_to_level] over an ordered band table. *)
Fixpoint level_in_bands (bands : list (level * (Q * Q))) (acc : Q) : level :=
  match bands with
  | [] => intermediate
  | (lv, (lo, hi)) :: rest =>
      if in_band lo hi acc then lv else level_in_bands rest acc
  end.

Definition _accuracy_to_level (acc : Q) : level :=
  level_in_bands LEVEL_BANDS acc.

Definition _label_topic (acc : Q) : label :=
  if Qle_bool STRENGTH_ACCURACY_THRESHOLD acc then strength
  else if Qle_bool acc WEAKNESS_ACCURACY_THRESHOLD then weakness
  else neutral.

Definition topic_profile_of_row (r : TopicScoreRow) : TopicProfile :=
  let acc := topic_accuracy r in
  {| tp_topic := ts_topic r;
     tp_accuracy := acc;
     tp_avg_time_seconds := topic_avg_time_seconds r;
     tp_n_questions := topic_n_questions r;
     tp_level := _accuracy_to_level acc;
     tp_label := _label_topic acc |}.

(** Sort keys: [key=lambda x: x.accuracy], plain and with [reverse=True]. *)
Definition acc_asc (a b : TopicProfile) : bool :=
  Qle_bool (tp_accuracy a) (tp_accuracy b).
Definition acc_desc (a b : TopicProfile) : bool :=
  Qle_bool (tp_accuracy b) (tp_accuracy a).

Definition build_student_profile
    (student_id : string)
    (student_topic_scores_df : list TopicScoreRow)
    (student_overall_df : list OverallRow) : result StudentProfile :=
  let row :=
    filter (fun r => String.eqb (ov_student_id r) student_id)
           student_overall_df in
  match row with
  | [] =>
      raise (ValueError
               ("Student_id non trovato nei dati overall: " ++ student_id))
  | row0 :: _ =>
      let overall_accuracy := overall_accuracy row0 in
      let overall_avg_time := overall_avg_time_seconds row0 in
      let overall_nq := overall_n_questions row0 in
      let overall_level := _accuracy_to_level overall_accuracy in
      let topic_rows :=
        filter (fun r => String.eqb (ts_student_id r) student_id)
               student_topic_scores_df in
      match topic_rows with
      | [] =>
          raise (ValueError
                   ("Nessun topic score per student_id: " ++ student_id))
      | _ :: _ =>
          let topic_profiles := map topic_profile_of_row topic_rows in
          let strengths :=
            filter (fun t => label_eqb (tp_label t) strength) topic_profiles in
          let weaknesses :=
            filter (fun t => label_eqb (tp_label t) weakness) topic_profiles in
          let neutrals :=
            filter (fun t => label_eqb (tp_label t) neutral) topic_profiles in
          ret {| sp_student_id := student_id;
                 sp_overall_accuracy := overall_accuracy;
                 sp_overall_avg_time_seconds := overall_avg_time;
                 sp_overall_n_questions := overall_nq;
                 sp_overall_level := overall_level;
                 strengths := stable_sort acc_desc strengths;
                 weaknesses := stable_sort acc_asc weaknesses;
                 neutrals := stable_sort acc_desc neutrals |}
      end
  end.

(** [summarize_profiles_for_class]: the overall table with its level. *)
Definition summarize_profiles_for_class
    (student_topic_scores_df : list TopicScoreRow)
    (student_overall_df : list OverallRow)
  : list (string * Q * level * Q * Z) :=
  map (fun r => (ov_student_id r, overall_accuracy r,
                 _accuracy_to_level (overall_accuracy r),
                 overall_avg_time_seconds r, overall_n_questions r))
      student_overall_df.

End profiling.

(** ** recommendations.py *)

Module recommendations.

Local Open Scope string_scope.

Record Recommendation : Type := mkRecommendation {
  title : string;
  why : string;
  how : list string;
  priority : Z
}.

(** [str.lower] on the ASCII letters. *)
Definition lower_ascii (c : ascii) : ascii :=
  let n := nat_of_ascii c in
  if andb (Nat.leb 65 n) (Nat.leb n 90) then ascii_of_nat (n + 32) else c.

Fixpoint lower (s : string) : string :=
  match s with
  | EmptyString => EmptyString
  | String c s' => String (lower_ascii c) (lower s')
  end.

Definition share_desc (a b : ErrorShareRow) : bool :=
  Qle_bool (error_share b) (error_share a).

Definition _top_error_types_for_topic
    (student_id topic : string)
    (student_topic_error_df : list ErrorShareRow)
    (top_k : nat) : list (string * Q) :=
  let sub :=
    filter (fun r => andb (String.eqb (es_student_id r) student_id)
                          (String.eqb (es_topic r) topic))
           student_topic_error_df in
  match sub with
  | [] => []
  | _ :: _ =>
      let sub := stable_sort share_desc sub in
      map (fun r => (es_error_type r, error_share r)) (firstn top_k sub)
  end.

(** One turn of the loop over [top_errors]: the [if]/[elif] chain. *)
Definition error_step (st : list string * list Z) (e : string * Q)
  : list string * list Z :=
  let '(how, priorities) := st in
  let err := lower (fst e) in
  if String.eqb err "segno" then
    (how ++ [ "Scrivi ogni passaggio e fai un check finale sui segni (+/-)";
              "Fai 10 esercizi brevi al giorno SOLO su passaggi di segno" ],
     priorities ++ [1%Z])%list
  else if String.eqb err "algebra" then
    (how ++ [ "Ripassa regole base (distributiva, frazioni, scomposizione)";
              "Esercizi guidati: prima con soluzione, poi senza guardare" ],
     priorities ++ [1%Z])%list
  else if String.eqb err "formula" then
    (how ++ [ "Crea una mini-scheda formule (max 10) e ripetila ogni giorno";
              "Allenati a riconoscere quale formula usare con esempi rapidi" ],
     priorities ++ [2%Z])%list
  else if String.eqb err "concetto" then
    (how ++ [ "Ripasso teoria con 2-3 esempi semplici (poi aumenti difficoltà)";
              "Spiega a voce il concetto in 60 secondi (se non riesci, non è chiaro)" ],
     priorities ++ [1%Z])%list
  else if String.eqb err "distrazione" then
    (how ++ [ "Check finale obbligatorio: unità, segno, ordine di grandezza";
              "Riduci la velocità del 10%: prima zero errori, poi tempo" ],
     priorities ++ [2%Z])%list
  else (how, priorities).

(** [min(priorities) if priorities else 2] *)
Definition min_priority (priorities : list Z) : Z :=
  match priorities with
  | [] => 2%Z
  | p :: ps => fold_left Z.min ps p
  end.

(** The de-duplication loop: first occurrences, in order. *)
Fixpoint dedup_loop (hs seen dedup : list string) : list string :=
  match hs with
  | [] => dedup
  | h :: hs' =>
      if existsb (String.eqb h) seen then dedup_loop hs' seen dedup
      else dedup_loop hs' (h :: seen) (dedup ++ [h])%list
  end.

(** The body of the loop over the weak-topic rows. *)
Definition recommend_topic
    (student_id : string)
    (student_topic_error_df : list ErrorShareRow)
    (r : TopicScoreRow) : Recommendation :=
  let topic := ts_topic r in
  let acc := topic_accuracy r in
  let avg_time := topic_avg_time_seconds r in
  let top_errors :=
    _top_error_types_for_topic student_id topic student_topic_error_df 2 in
  let why_parts := [ "Accuracy " ++ format_pct0 acc ] in
  let why_parts :=
    if negb (Qle_bool avg_time (90 # 1))
    then List.app why_parts [ "tempo medio alto (" ++ format_f0 avg_time ++ "s)" ]
    else why_parts in
  let why_parts :=
    match top_errors with
    | [] => why_parts
    | _ :: _ =>
        List.app why_parts
          [ "errori prevalenti: " ++ String.concat ", " (map fst top_errors) ]
    end in
  let why := "Nel topic **" ++ topic ++ "**: "
               ++ String.concat "; " why_parts ++ "." in
  let '(how, priorities) := fold_left error_step top_errors ([], []) in
  let '(how, priorities) :=
    match how with
    | [] =>
        ([ "Risolvi 15 esercizi del topic dal facile al medio, segnando gli errori";
           "Dopo 2 giorni, rifai gli stessi esercizi senza guardare" ],
         (priorities ++ [2%Z])%list)
    | _ :: _ => (how, priorities)
    end in
  let '(how, priorities) :=
    if negb (Qle_bool avg_time (120 # 1))
    then ((how ++ [ "Aggiungi 5 esercizi a tempo (timer 60-90s) per automatizzare" ])%list,
          (priorities ++ [2%Z])%list)
    else (how, priorities) in
  {| title := "Migliora " ++ topic;
     why := why;
     how := dedup_loop how [] [];
     priority := min_priority priorities |}.

(** The loop over [sub_scores], with its [break] once
    [len(recs) >= max_recommendations]. *)
Fixpoint rec_loop
    (student_id : string)
    (student_topic_error_df : list ErrorShareRow)
    (max_recommendations : Z)
    (rows : list TopicScoreRow)
    (recs : list Recommendation) : list Recommendation :=
  match rows with
  | [] => recs
  | r :: rows' =>
      let recs :=
        (recs ++ [recommend_topic student_id student_topic_error_df r])%list in
      if (max_recommendations <=? Zlength_of recs)%Z then recs
      else rec_loop student_id student_topic_error_df
                    max_recommendations rows' recs
  end.

(** The rows the loop has turned into recommendations when it ends: the
    [break] is tested after the append, so the first row always is. *)
Definition processed_rows (max_recommendations : Z) (rows : list TopicScoreRow)
  : list TopicScoreRow :=
  firstn (Z.to_nat (Z.max 1 max_recommendations)) rows.

Definition accuracy_asc (a b : TopicScoreRow) : bool :=
  Qle_bool (topic_accuracy a) (topic_accuracy b).

Definition priority_asc (a b : Recommendation) : bool :=
  (priority a <=? priority b)%Z.

Definition maintain_pace : Recommendation :=
  {| title := "Mantieni il ritmo";
     why := "Non emergono lacune marcate: continua con esercizi di consolidamento.";
     how := [ "Esercizi misti 3 volte a settimana (mix di topic)";
              "Aggiungi 1 esercizio più difficile per topic per alzare il livello" ];
     priority := 2 |}.

(** The weak-topic rows of the student, most severe first. *)
Definition sub_scores
    (student_id : string) (weaknesses : list string)
    (student_topic_scores_df : list TopicScoreRow) : list TopicScoreRow :=
  let sub :=
    filter (fun r => String.eqb (ts_student_id r) student_id)
           student_topic_scores_df in
  stable_sort accuracy_asc
    (filter (fun r => existsb (String.eqb (ts_topic r)) weaknesses) sub).

Definition generate_recommendations
    (student_id : string)
    (weaknesses : list string)
    (student_topic_error_df : list ErrorShareRow)
    (student_topic_scores_df : list TopicScoreRow)
    (max_recommendations : Z) : list Recommendation :=
  match weaknesses with
  | [] => [ maintain_pace ]
  | _ :: _ =>
      let recs :=
        rec_loop student_id student_topic_error_df max_recommendations
                 (sub_scores student_id weaknesses student_topic_scores_df)
                 [] in
      stable_sort priority_asc recs
  end.

End recommendations.

(** ** Raw attempts and [groupby] *)

(** One row of [student_answers.csv]. *)
Record Attempt : Type := mkAttempt {
  student_id : string;
  test_id : string;
  question_id : string;
  topic : string;
  subskill : string;
  difficulty : Z;
  correct_answer : Q;
  answer_given : Q;
  is_correct : bool;
  error_type : string;
  time_seconds : Q;
  confidence : Z
}.

(** A frame of attempts: the header that was read and the rows.  A field of
    a row whose column is not in the header is never looked at. *)
Record DataFrame : Type := mkDataFrame {
  df_columns : list string;
  df_rows : list Attempt
}.

Definition has_column (df : DataFrame) (c : string) : bool :=
  existsb (String.eqb c) (df_columns df).

(** Selecting columns by name: a [KeyError] names those that are absent. *)
Definition require_columns (cols : list string) (df : DataFrame) : result unit :=
  match filter (fun c => negb (has_column df c)) cols with
  | [] => ret tt
  | missing => raise (KeyError missing)
  end.

Definition pair_dec (a b : string * string) : {a = b} + {a <> b}.
Proof. decide equality; apply string_dec. Defined.

Definition triple_dec (a b : string * string * string) : {a = b} + {a <> b}.
Proof. decide equality; [apply string_dec | apply pair_dec]. Defined.

(** Lexicographic order of the group keys. *)
Definition pair_leb (a b : string * string) : bool :=
  match String.compare (fst a) (fst b) with
  | Lt => true
  | Gt => false
  | Eq => String.leb (snd a) (snd b)
  end.

Definition triple_leb (a b : string * string * string) : bool :=
  match String.compare (fst (fst a)) (fst (fst b)) with
  | Lt => true
  | Gt => false
  | Eq => pair_leb (snd (fst a), snd a) (snd (fst b), snd b)
  end.

Section GroupBy.
Context {A K : Type}.
Variable K_dec : forall a b : K, {a = b} + {a <> b}.
Variable K_leb : K -> K -> bool.
Variable key : A -> K.

(** The distinct keys, sorted ([sort=True] is the default). *)
Definition group_keys (rows : list A) : list K :=
  stable_sort K_leb (nodup K_dec (map key rows)).

Definition group_of (rows : list A) (k : K) : list A :=
  filter (fun r => if K_dec (key r) k then true else false) rows.

Definition groupby (rows : list A) : list (K * list A) :=
  map (fun k => (k, group_of rows k)) (group_keys rows).
End GroupBy.

(** ** scoring.py *)

Module scoring.

Local Open Scope string_scope.

Definition required : list string :=
  [ "student_id"; "test_id"; "question_id"; "topic"; "subskill";
    "difficulty"; "correct_answer"; "answer_given"; "is_correct";
    "error_type"; "time_seconds"; "confidence" ].

(** [repr] of a list of plain column names. *)
Definition repr_list (l : list string) : string :=
  "[" ++ String.concat ", " (map (fun s => "'" ++ s ++ "'") l) ++ "]".

(** The check of [load_raw_answers], on the frame [read_csv] returned. *)
Definition load_raw_answers (answers_df : DataFrame) : result DataFrame :=
  let missing := filter (fun c => negb (has_column answers_df c)) required in
  match missing with
  | [] => ret answers_df
  | _ :: _ =>
      raise (ValueError
               ("student_answers.csv manca colonne: "
                  ++ repr_list (stable_sort String.leb missing)))
  end.

Definition correct01 (r : Attempt) : Q := if is_correct r then 1%Q else 0%Q.

Definition compute_student_topic_scores (answers_df : DataFrame)
  : result (list TopicScoreRow) :=
  _ <- require_columns [ "student_id"; "topic" ] answers_df ;;
  _ <- require_columns
         [ "question_id"; "is_correct"; "time_seconds"; "confidence" ]
         answers_df ;;
  ret (map (fun kg : string * string * list Attempt =>
              let '(k, g) := kg in
              {| ts_student_id := fst k;
                 ts_topic := snd k;
                 topic_n_questions := Zlength_of g;
                 topic_accuracy := round4 (mean (map correct01 g));
                 topic_avg_time_seconds := round2 (mean (map time_seconds g));
                 topic_avg_confidence :=
                   round2 (mean (map (fun r => inject_Z (confidence r)) g)) |})
           (groupby pair_dec pair_leb
                    (fun r => (student_id r, topic r))
                    (df_rows answers_df))).

Definition compute_student_overall_summary (answers_df : DataFrame)
  : result (list OverallRow) :=
  _ <- require_columns [ "student_id" ] answers_df ;;
  _ <- require_columns
         [ "question_id"; "is_correct"; "time_seconds"; "confidence" ]
         answers_df ;;
  ret (map (fun kg : string * list Attempt =>
              let '(k, g) := kg in
              {| ov_student_id := k;
                 overall_n_questions := Zlength_of g;
                 overall_accuracy := round4 (mean (map correct01 g));
                 overall_avg_time_seconds := round2 (mean (map time_seconds g));
                 overall_avg_confidence :=
                   round2 (mean (map (fun r => inject_Z (confidence r)) g)) |})
           (groupby string_dec String.leb student_id (df_rows answers_df))).

(** The intermediate frames [counts] and [totals]. *)
Record CountRow : Type := mkCountRow {
  c_student_id : string;
  c_topic : string;
  c_error_type : string;
  c_n : Z
}.

Record TotalRow : Type := mkTotalRow {
  t_student_id : string;
  t_topic : string;
  total_n : Z
}.

Definition counts_of (rows : list Attempt) : list CountRow :=
  map (fun kg : string * string * string * list Attempt =>
         let '(k, g) := kg in
         {| c_student_id := fst (fst k);
            c_topic := snd (fst k);
            c_error_type := snd k;
            c_n := Zlength_of g |})
      (groupby triple_dec triple_leb
               (fun r => (student_id r, topic r, error_type r)) rows).

Definition totals_of (counts : list CountRow) : list TotalRow :=
  map (fun kg : string * string * list CountRow =>
         let '(k, g) := kg in
         {| t_student_id := fst k;
            t_topic := snd k;
            total_n := Zsum (map c_n g) |})
      (groupby pair_dec pair_leb
               (fun c => (c_student_id c, c_topic c)) counts).

(** [counts.merge(totals, on=["student_id", "topic"], how="left")]: every
    row of [counts] with each row of [totals] on the same key.  [totals]
    is grouped from [counts], so no row of [counts] is left unmatched. *)
Definition merge_totals (counts : list CountRow) (totals : list TotalRow)
  : list (CountRow * Z) :=
  flat_map
    (fun c =>
       map (fun t => (c, total_n t))
           (filter (fun t => andb (String.eqb (t_student_id t) (c_student_id c))
                                  (String.eqb (t_topic t) (c_topic c)))
                   totals))
    counts.

Definition compute_student_topic_error_shares (answers_df : DataFrame)
  : result (list ErrorShareRow) :=
  _ <- require_columns [ "student_id"; "topic"; "error_type" ] answers_df ;;
  let counts := counts_of (df_rows answers_df) in
  let totals := totals_of counts in
  let merged := merge_totals counts totals in
  ret (map (fun m : CountRow * Z =>
              let '(c, total) := m in
              {| es_student_id := c_student_id c;
                 es_topic := c_topic c;
                 es_error_type := c_error_type c;
                 error_share := round4 (inject_Z (c_n c) / inject_Z total) |})
           merged).


End scoring.

(** ** Quantities the properties speak of *)

(** The mean of the per-topic accuracies of some topic-score rows, each
    weighted by its [topic_n_questions]. *)
Definition count_weighted_accuracy (rows : list TopicScoreRow) : Q :=
  (Qsum (map (fun r => inject_Z (topic_n_questions r) * topic_accuracy r) rows)
   / inject_Z (Zsum (map topic_n_questions rows)))%Q.

(** [is_correct] as a count. *)
Definition c01 (r : Attempt) : Z := if is_correct r then 1 else 0.

(** The sum of the shares of one (student, topic) pair. *)
Definition share_sum (sid tp : string) (rows : list ErrorShareRow) : Q :=
  Qsum (map error_share
            (filter (fun r => andb (String.eqb (es_student_id r) sid)
                                   (String.eqb (es_topic r) tp))
                    rows)).

(** ** Sample frames *)

Module samples.

Local Open Scope string_scope.

Definition attempt (sid qid tp : string) (ok : bool) (err : string) (secs : Q)
  : Attempt :=
  {| student_id := sid; test_id := "t1"; question_id := qid; topic := tp;
     subskill := "a1"; difficulty := 1; correct_answer := 1;
     answer_given := if ok then 1 else 0; is_correct := ok;
     error_type := err; time_seconds := secs; confidence := 3 |}.

(** One student, one topic, three attempts with three error types. *)
Definition three_error_types : DataFrame :=
  {| df_columns := scoring.required;
     df_rows := [ attempt "s1" "q1" "A" true "none" 10;
                  attempt "s1" "q2" "A" false "algebra" 20;
                  attempt "s1" "q3" "A" false "segno" 30 ] |}.

(** One student, one correct answer out of three in topic A and one out of
    one in topic B. *)
Definition two_topics : DataFrame :=
  {| df_columns := scoring.required;
     df_rows := [ attempt "s1" "q1" "A" true "none" 10;
                  attempt "s1" "q2" "A" false "algebra" 20;
                  attempt "s1" "q3" "A" false "segno" 30;
                  attempt "s1" "q4" "B" true "none" 15 ] |}.

(** The three attempts of the specification's worked example. *)
Definition spec_example : DataFrame :=
{| df_columns := scoring.required;
   df_rows := [ attempt "s1" "q1" "A" true "none" 10;
                attempt "s1" "q2" "A" false "algebra" 20;
                attempt "s1" "q3" "A" true "none" 30 ] |}.


(** Three weak topics of one student and their error shares. *)
Definition weak_scores : list TopicScoreRow :=
  [ mkTopicScoreRow "s1" "C" 10 (5 # 10) 40 3;
    mkTopicScoreRow "s1" "A" 10 (3 # 10) 40 3;
    mkTopicScoreRow "s1" "B" 10 (4 # 10) 40 3 ].

Definition weak_errors : list ErrorShareRow :=
  [ mkErrorShareRow "s1" "A" "formula" (7 # 10);
    mkErrorShareRow "s1" "A" "none" (3 # 10);
    mkErrorShareRow "s1" "B" "segno" (6 # 10);
    mkErrorShareRow "s1" "B" "none" (4 # 10);
    mkErrorShareRow "s1" "C" "distrazione" (5 # 10);
    mkErrorShareRow "s1" "C" "none" (5 # 10) ].

End samples.

(** ** report_builder.py *)

Module report_builder.

Local Open Scope string_scope.

(** The level as the template and the CSS class see it: the key of
    [LEVEL_BANDS]. *)
Definition level_name (l : config.level) : string :=
  match l with
  | config.beginner => "beginner"
  | config.intermediate => "intermediate"
  | config.advanced => "advanced"
  end.

Definition _level_to_css_class (level : string) : string :=
  let level := recommendations.lower level in
  if String.eqb level "advanced" then "ok"
  else if String.eqb level "beginner" then "bad"
  else "warn".

(** What [build_student_report_html] hands to the template, the three
    charts apart. *)
Record ReportContext : Type := mkReportContext {
  rc_student_id : string;
  rc_overall_level : string;
  rc_level_class : string;
  rc_overall_accuracy : Q;
  rc_overall_avg_time_seconds : Q;
  rc_overall_n_questions : Z;
  rc_strengths_count : Z;
  rc_topics : list profiling.TopicProfile;
  rc_recommendations : list recommendations.Recommendation
}.

(** [build_student_report_html] up to the rendering: the profile, the
    recommendations for its weaknesses (at most five) and the topic table. *)
Definition build_student_report_context
    (student_id : string)
    (topic_scores_df : list TopicScoreRow)
    (overall_df : list OverallRow)
    (error_shares_df : list ErrorShareRow) : result ReportContext :=
  profile <- profiling.build_student_profile student_id topic_scores_df overall_df ;;
  let weaknesses_topics :=
    map profiling.tp_topic (profiling.weaknesses profile) in
  let recs :=
    recommendations.generate_recommendations
      student_id weaknesses_topics error_shares_df topic_scores_df 5 in
  let topics_for_table :=
    (profiling.strengths profile ++ profiling.neutrals profile
       ++ profiling.weaknesses profile)%list in
  ret {| rc_student_id := profiling.sp_student_id profile;
         rc_overall_level := level_name (profiling.sp_overall_level profile);
         rc_level_class :=
           _level_to_css_class (level_name (profiling.sp_overall_level profile));
         rc_overall_accuracy := profiling.sp_overall_accuracy profile;
         rc_overall_avg_time_seconds :=
           profiling.sp_overall_avg_time_seconds profile;
         rc_overall_n_questions := profiling.sp_overall_n_questions profile;
         rc_strengths_count := Zlength_of (profiling.strengths profile);
         rc_topics := topics_for_table;
         rc_recommendations := recs |}.

End report_builder.

(** ** Further quantities the properties speak of *)

(** The levels in increasing order. *)
Definition level_rank (l : config.level) : Z :=
  match l with
  | config.beginner => 0
  | config.intermediate => 1
  | config.advanced => 2
  end.

(** The error types whose rule contributes priority 1. *)
Definition urgent_error (err : string) : bool :=
  let err := recommendations.lower err in
  orb (String.eqb err "segno")
      (orb (String.eqb err "algebra") (String.eqb err "concetto")).

(** The error types that have a rule at all. *)
Definition known_error (err : string) : bool :=
  let err := recommendations.lower err in
  orb (String.eqb err "segno")
      (orb (String.eqb err "algebra")
           (orb (String.eqb err "formula")
                (orb (String.eqb err "concetto")
                     (String.eqb err "distrazione")))).

(** What the rule of one error type adds to [how] and to [priorities]. *)
Definition rule_actions (err : string) : list string :=
  fst (recommendations.error_step ([], []) (err, 0%Q)).

Definition rule_priority (err : string) : list Z :=
  snd (recommendations.error_step ([], []) (err, 0%Q)).

(** The action added for a slow topic, and the two generic actions. *)
Definition timed_drill : string :=
  "Aggiungi 5 esercizi a tempo (timer 60-90s) per automatizzare".

Definition generic_drill : list string :=
  [ "Risolvi 15 esercizi del topic dal facile al medio, segnando gli errori"%string;
    "Dopo 2 giorni, rifai gli stessi esercizi senza guardare"%string ].

(** The key of the error-share grouping. *)
Definition key3 (a : Attempt) : string * string * string :=
  (student_id a, topic a, error_type a).

(** The rows of one student, of one (student, topic) pair. *)
Definition topic_rows_of (sid : string) (rows : list TopicScoreRow)
  : list TopicScoreRow :=
  filter (fun r => String.eqb (ts_student_id r) sid) rows.

Definition share_rows_of (sid tp : string) (rows : list ErrorShareRow)
  : list ErrorShareRow :=
  filter (fun r => andb (String.eqb (es_student_id r) sid)
                        (String.eqb (es_topic r) tp))
         rows.

Definition attempts_of_pair (sid tp : string) (rows : list Attempt)
  : list Attempt :=
  filter (fun a => andb (String.eqb (student_id a) sid)
                        (String.eqb (topic a) tp))
         rows.

(** * Properties *)

(** ** The stable sort *)

Section StableSortFacts.
Context {A : Type}.
Variable leb : A -> A -> bool.

Lemma insert_stable_perm (x : A) (l : list A) :
  Permutation (x :: l) (insert_stable leb x l).
Proof.
  induction l as [|y l IH]; simpl.
  - apply Permutation_refl.
  - destruct (leb x y).
    + apply Permutation_refl.
    + eapply perm_trans; [apply perm_swap|]. now apply perm_skip.
Qed.

Lemma stable_sort_perm (l : list A) : Permutation l (stable_sort leb l).
Proof.
  induction l as [|x l IH]; simpl.
  - apply perm_nil.
  - eapply perm_trans; [apply perm_skip, IH|]. apply insert_stable_perm.
Qed.

Lemma stable_sort_nil_iff (l : list A) : stable_sort leb l = [] <-> l = [].
Proof.
  split; intros H.
  - apply Permutation_nil. rewrite <- H. apply Permutation_sym, stable_sort_perm.
  - now subst.
Qed.

Section Total.
Hypothesis leb_total : forall a b, leb a b = false -> leb b a = true.

Let R (a b : A) : Prop := leb a b = true.

Lemma insert_stable_sorted (x : A) (l : list A) :
  Sorted R l -> Sorted R (insert_stable leb x l).
Proof.
  induction l as [|y l IH]; simpl; intros Hs.
  - repeat constructor.
  - destruct (leb x y) eqn:E.
    + constructor; [exact Hs|]. constructor. exact E.
    + inversion Hs as [|? ? Hl Hhd]; subst.
      constructor; [now apply IH|].
      destruct l as [|z l]; simpl.
      * constructor. now apply leb_total.
      * destruct (leb x z); constructor.
        -- now apply leb_total.
        -- now inversion Hhd.
Qed.

Lemma stable_sort_sorted (l : list A) : Sorted R (stable_sort leb l).
Proof.
  induction l as [|x l IH]; simpl.
  - constructor.
  - now apply insert_stable_sorted.
Qed.
End Total.
End StableSortFacts.

Lemma Sorted_weaken {A : Type} (R S : A -> A -> Prop) (l : list A) :
  (forall a b, R a b -> S a b) -> Sorted R l -> Sorted S l.
Proof.
  intros HRS. induction 1 as [|x l Hl IH Hhd]; constructor; auto.
  destruct Hhd; constructor; auto.
Qed.

Lemma Sorted_firstn {A : Type} (R : A -> A -> Prop) (n : nat) (l : list A) :
  Sorted R l -> Sorted R (firstn n l).
Proof.
  revert l. induction n as [|n IH]; intros l Hs; simpl.
  - constructor.
  - destruct l as [|x l]; [constructor|].
    inversion Hs as [|? ? Hl Hhd]; subst.
    constructor; [now apply IH|].
    destruct n; simpl; [constructor|].
    destruct l; [constructor|]. inversion Hhd; now constructor.
Qed.

(** Sorting on an integer key keeps, within each key, the order of the
    input. *)
Lemma stable_sort_keeps_key_order {A : Type} (key : A -> Z) (p : Z) (l : list A) :
  filter (fun a => key a =? p) (stable_sort (fun a b => key a <=? key b) l)
  = filter (fun a => key a =? p) l.
Proof.
  induction l as [|x l IH]; simpl; [reflexivity|].
  rewrite <- IH. clear IH.
  induction (stable_sort (fun a b => key a <=? key b) l) as [|y s IHs]; simpl.
  - reflexivity.
  - destruct (key x <=? key y) eqn:E; simpl; [reflexivity|].
    rewrite IHs. simpl.
    destruct (key x =? p) eqn:Ex; destruct (key y =? p) eqn:Ey; try reflexivity.
    apply Z.eqb_eq in Ex, Ey. apply Z.leb_gt in E. lia.
Qed.

Lemma Qle_bool_total (a b : Q) : Qle_bool a b = false -> Qle_bool b a = true.
Proof.
  intros H. apply Qle_bool_iff. apply Qlt_le_weak, Qnot_le_lt.
  intros Hle. apply Qle_bool_iff in Hle. congruence.
Qed.

Lemma Qle_bool_false (a b : Q) : Qle_bool a b = false <-> (b < a)%Q.
Proof.
  split; intros H.
  - apply Qnot_le_lt. intros Hle. apply Qle_bool_iff in Hle. congruence.
  - destruct (Qle_bool a b) eqn:E; [|reflexivity].
    apply Qle_bool_iff in E. exfalso. eapply Qlt_not_le; eauto.
Qed.

(** ** Profiling *)

Section ProfilingFacts.
Import config profiling.
Local Open Scope Q_scope.

Lemma in_band_true (lo hi acc : Q) :
  in_band lo hi acc = true <-> lo <= acc /\ acc < hi.
Proof.
  unfold in_band. rewrite andb_true_iff, negb_true_iff.
  rewrite Qle_bool_iff, Qle_bool_false. tauto.
Qed.

Lemma in_band_false (lo hi acc : Q) :
  in_band lo hi acc = false <-> ~ (lo <= acc /\ acc < hi).
Proof.
  rewrite <- in_band_true. destruct (in_band lo hi acc); split; congruence.
Qed.

(** The band loop returns the level of the first band that holds [acc]. *)
Lemma level_in_bands_first_match
    (pre post : list (level * (Q * Q))) (lv : level) (lo hi acc : Q) :
  (forall lv' lo' hi', In (lv', (lo', hi')) pre -> ~ (lo' <= acc /\ acc < hi')) ->
  lo <= acc /\ acc < hi ->
  level_in_bands (pre ++ (lv, (lo, hi)) :: post) acc = lv.
Proof.
  intros Hpre Hin. induction pre as [|[lv' [lo' hi']] pre IH]; simpl.
  - apply in_band_true in Hin. now rewrite Hin.
  - assert (E : in_band lo' hi' acc = false).
    { apply in_band_false. apply (Hpre lv'). now left. }
    rewrite E. apply IH. intros l1 l2 h2 Hl. apply (Hpre l1). now right.
Qed.

(** With no band holding [acc], the loop falls through to its default. *)
Lemma level_in_bands_no_match (bands : list (level * (Q * Q))) (acc : Q) :
  (forall lv lo hi, In (lv, (lo, hi)) bands -> ~ (lo <= acc /\ acc < hi)) ->
  level_in_bands bands acc = intermediate.
Proof.
  intros Hno. induction bands as [|[lv [lo hi]] bands IH]; simpl.
  - reflexivity.
  - assert (E : in_band lo hi acc = false).
    { apply in_band_false. apply (Hno lv). now left. }
    rewrite E. apply IH. intros l1 l2 h2 Hl. apply (Hno l1). now right.
Qed.

Lemma topic_profile_accuracy (r : TopicScoreRow) :
  tp_accuracy (topic_profile_of_row r) = topic_accuracy r.
Proof. reflexivity. Qed.

Lemma sorted_acc_asc (l : list TopicProfile) :
  Sorted (fun a b => tp_accuracy a <= tp_accuracy b) (stable_sort acc_asc l).
Proof.
  apply Sorted_weaken with (R := fun a b => acc_asc a b = true).
  - intros a b H. now apply Qle_bool_iff.
  - apply stable_sort_sorted. intros a b. apply Qle_bool_total.
Qed.

Lemma sorted_acc_desc (l : list TopicProfile) :
  Sorted (fun a b => tp_accuracy b <= tp_accuracy a) (stable_sort acc_desc l).
Proof.
  apply Sorted_weaken with (R := fun a b => acc_desc a b = true).
  - intros a b H. now apply Qle_bool_iff.
  - apply stable_sort_sorted. intros a b. apply Qle_bool_total.
Qed.

Lemma filter_nil_iff {A : Type} (f : A -> bool) (l : list A) :
  filter f l = [] <-> forall x, In x l -> f x = false.
Proof.
  induction l as [|a l IH]; simpl.
  - split; [intros _ x []|reflexivity].
  - destruct (f a) eqn:E; split.
    + discriminate.
    + intros H. specialize (H a (or_introl eq_refl)). congruence.
    + intros H x [<-|Hx]; [exact E|]. now apply IH.
    + intros H. apply IH. intros x Hx. apply H. now right.
Qed.

End ProfilingFacts.

(** C7. [_label_topic] labels an accuracy "strength" when it is at least the
    strength threshold 0.80, "weakness" when it is at most the weakness
    threshold 0.55, and "neutral" otherwise; the strength threshold is above
    the weakness threshold, so the two conditions never hold together. *)
Theorem label_topic_thresholds (acc : Q) :
  (config.STRENGTH_ACCURACY_THRESHOLD == 80 # 100)%Q /\
  (config.WEAKNESS_ACCURACY_THRESHOLD == 55 # 100)%Q /\
  ((80 # 100 <= acc)%Q -> profiling._label_topic acc = profiling.strength) /\
  ((acc <= 55 # 100)%Q -> profiling._label_topic acc = profiling.weakness) /\
  (~ (80 # 100 <= acc)%Q -> ~ (acc <= 55 # 100)%Q ->
   profiling._label_topic acc = profiling.neutral) /\
  (config.WEAKNESS_ACCURACY_THRESHOLD < config.STRENGTH_ACCURACY_THRESHOLD)%Q /\
  ~ ((config.STRENGTH_ACCURACY_THRESHOLD <= acc)%Q /\
     (acc <= config.WEAKNESS_ACCURACY_THRESHOLD)%Q).
Proof.
  unfold profiling._label_topic, config.STRENGTH_ACCURACY_THRESHOLD,
    config.WEAKNESS_ACCURACY_THRESHOLD.
  repeat split; try reflexivity.
  - intros H. apply Qle_bool_iff in H. now rewrite H.
  - intros H.
    destruct (Qle_bool (80 # 100) acc) eqn:E.
    + apply Qle_bool_iff in E. lra.
    + apply Qle_bool_iff in H. now rewrite H.
  - intros Hs Hw.
    destruct (Qle_bool (80 # 100) acc) eqn:E.
    + apply Qle_bool_iff in E. contradiction.
    + destruct (Qle_bool acc (55 # 100)) eqn:E'; [|reflexivity].
      apply Qle_bool_iff in E'. contradiction.
  - intros [H1 H2]. lra.
Qed.

Lemma label_topic_thresholds_witness :
  profiling._label_topic (9 # 10) = profiling.strength /\
  profiling._label_topic (4 # 10) = profiling.weakness /\
  profiling._label_topic (7 # 10) = profiling.neutral.
Proof.
  split; [|split].
  - apply (label_topic_thresholds (9 # 10)). unfold Qle; simpl; lia.
  - apply (label_topic_thresholds (4 # 10)). unfold Qle; simpl; lia.
  - apply (label_topic_thresholds (7 # 10)); unfold Qle; simpl; lia.
Defined.

(** C8. For an accuracy in [0, 1], [_accuracy_to_level] returns the level of
    the first configured half-open band [lo, hi) that contains it: with the
    configured bands, "beginner" on [0, 0.50), "intermediate" on
    [0.50, 0.75) and "advanced" on [0.75, 1.01), so that 1.0 is "advanced";
    when no band of the table contains the accuracy the result is
    "intermediate". *)
Theorem accuracy_to_level_bands :
  (forall pre post lv lo hi acc,
      (forall lv' lo' hi',
          In (lv', (lo', hi')) pre -> ~ (lo' <= acc /\ acc < hi')%Q) ->
      (lo <= acc /\ acc < hi)%Q ->
      profiling.level_in_bands (pre ++ (lv, (lo, hi)) :: post) acc = lv) /\
  (forall acc, (0 <= acc /\ acc <= 1)%Q ->
      ((acc < 50 # 100)%Q ->
       profiling._accuracy_to_level acc = config.beginner) /\
      ((50 # 100 <= acc /\ acc < 75 # 100)%Q ->
       profiling._accuracy_to_level acc = config.intermediate) /\
      ((75 # 100 <= acc)%Q ->
       profiling._accuracy_to_level acc = config.advanced)) /\
  profiling._accuracy_to_level 1 = config.advanced /\
  (forall bands acc,
      (forall lv lo hi, In (lv, (lo, hi)) bands -> ~ (lo <= acc /\ acc < hi)%Q) ->
      profiling.level_in_bands bands acc = config.intermediate).
Proof.
  split; [|split; [|split]].
  - intros. now apply level_in_bands_first_match.
  - intros acc [H0 H1].
    unfold profiling._accuracy_to_level, config.LEVEL_BANDS.
    split; [|split]; intros H.
    + apply (level_in_bands_first_match [] _ config.beginner); [intros ? ? ? []|].
      split; [lra|exact H].
    + apply (level_in_bands_first_match
               [(config.beginner, (0 # 100, 50 # 100))] _ config.intermediate).
      * intros lv' lo' hi' [E|[]]. inversion E; subst. intros [_ Hlt]. lra.
      * exact H.
    + apply (level_in_bands_first_match
               [(config.beginner, (0 # 100, 50 # 100));
                (config.intermediate, (50 # 100, 75 # 100))] _ config.advanced).
      * intros lv' lo' hi' [E|[E|[]]]; inversion E; subst; intros [_ Hlt]; lra.
      * split; [exact H|lra].
  - reflexivity.
  - intros. now apply level_in_bands_no_match.
Qed.

Lemma accuracy_to_level_bands_witness :
  profiling._accuracy_to_level (4 # 10) = config.beginner /\
  profiling._accuracy_to_level (6 # 10) = config.intermediate /\
  profiling._accuracy_to_level (9 # 10) = config.advanced /\
  profiling.level_in_bands [(config.beginner, (0 # 1, 1 # 2))] (3 # 4)
  = config.intermediate.
Proof.
  destruct accuracy_to_level_bands as (_ & Hdef & _ & Hno).
  split; [|split; [|split]].
  - apply (Hdef (4 # 10)); unfold Qle, Qlt; simpl; lia.
  - apply (Hdef (6 # 10)); unfold Qle, Qlt; simpl; lia.
  - apply (Hdef (9 # 10)); unfold Qle, Qlt; simpl; lia.
  - apply Hno. intros lv lo hi [E|[]]. inversion E; subst.
    unfold Qle, Qlt; simpl; lia.
Defined.

(** C9. In every profile [build_student_profile] returns, the weaknesses are
    sorted by ascending accuracy and the strengths and the neutrals by
    descending accuracy: the order holds for every adjacent pair. *)
Theorem build_student_profile_sorted
    (sid : string) (scores : list TopicScoreRow) (overall : list OverallRow)
    (p : profiling.StudentProfile) :
  profiling.build_student_profile sid scores overall = inr p ->
  Sorted (fun a b => (profiling.tp_accuracy a <= profiling.tp_accuracy b)%Q)
         (profiling.weaknesses p) /\
  Sorted (fun a b => (profiling.tp_accuracy b <= profiling.tp_accuracy a)%Q)
         (profiling.strengths p) /\
  Sorted (fun a b => (profiling.tp_accuracy b <= profiling.tp_accuracy a)%Q)
         (profiling.neutrals p).
Proof.
  unfold profiling.build_student_profile.
  destruct (filter _ overall) as [|row0 rows]; [discriminate|].
  destruct (filter _ scores) as [|t0 ts]; [discriminate|].
  intros H. inversion H; subst; clear H. cbn [profiling.weaknesses
    profiling.strengths profiling.neutrals].
  split; [apply sorted_acc_asc|split; apply sorted_acc_desc].
Qed.

Lemma build_student_profile_sorted_witness :
  match profiling.build_student_profile "s1"
          [ mkTopicScoreRow "s1" "A" 10 (9 # 10) 20 4;
            mkTopicScoreRow "s1" "B" 10 (4 # 10) 50 2;
            mkTopicScoreRow "s1" "C" 10 (3 # 10) 50 2 ]
          [ mkOverallRow "s1" 30 (53 # 100) 40 3 ]
  with
  | inl _ => False
  | inr p =>
      map profiling.tp_topic (profiling.weaknesses p) = [ "C"; "B" ]%string /\
      Sorted (fun a b => (profiling.tp_accuracy a <= profiling.tp_accuracy b)%Q)
             (profiling.weaknesses p)
  end.
Proof.
  destruct (profiling.build_student_profile _ _ _) as [e|p] eqn:E.
  - vm_compute in E. discriminate.
  - split.
    + vm_compute in E. inversion E; subst. reflexivity.
    + eapply build_student_profile_sorted. exact E.
Defined.

(** C5. [build_student_profile] raises its not-found error (a [ValueError])
    exactly when the student has no row in the overall summary or no row in
    the topic scores; a call that raises returns no profile. *)
Theorem build_student_profile_not_found
    (sid : string) (scores : list TopicScoreRow) (overall : list OverallRow) :
  ((exists e, profiling.build_student_profile sid scores overall = inl e) <->
   (forall r, In r overall -> ov_student_id r <> sid) \/
   (forall r, In r scores -> ts_student_id r <> sid)) /\
  (forall e, profiling.build_student_profile sid scores overall = inl e ->
             (exists msg, e = ValueError msg) /\
             forall p, profiling.build_student_profile sid scores overall <> inr p).
Proof.
  assert (Hov : filter (fun r => String.eqb (ov_student_id r) sid) overall = []
                <-> forall r, In r overall -> ov_student_id r <> sid).
  { rewrite filter_nil_iff. split; intros H r Hr; specialize (H r Hr).
    - now apply String.eqb_neq.
    - now apply String.eqb_neq. }
  assert (Hts : filter (fun r => String.eqb (ts_student_id r) sid) scores = []
                <-> forall r, In r scores -> ts_student_id r <> sid).
  { rewrite filter_nil_iff. split; intros H r Hr; specialize (H r Hr).
    - now apply String.eqb_neq.
    - now apply String.eqb_neq. }
  unfold profiling.build_student_profile.
  destruct (filter _ overall) as [|row0 rows].
  - split.
    + split; [intros _; left; now apply Hov|intros _; eexists; reflexivity].
    + intros e He. inversion He; subst. split; [eexists; reflexivity|].
      intros p; discriminate.
  - destruct (filter _ scores) as [|t0 ts].
    + split.
      * split; [intros _; right; now apply Hts|intros _; eexists; reflexivity].
      * intros e He. inversion He; subst. split; [eexists; reflexivity|].
        intros p; discriminate.
    + split.
      * split.
        -- intros [e He]. discriminate.
        -- intros [H|H]; [apply Hov in H|apply Hts in H]; discriminate.
      * intros e He. discriminate.
Qed.

Lemma build_student_profile_not_found_witness :
  exists e,
    profiling.build_student_profile "s2"
      [ mkTopicScoreRow "s1" "A" 10 (9 # 10) 20 4 ]
      [ mkOverallRow "s1" 10 (9 # 10) 20 4 ] = inl e.
Proof.
  apply (build_student_profile_not_found "s2").
  left. intros r [<-|[]]. vm_compute. discriminate.
Defined.

(** ** Recommendations *)

Section RecommendationFacts.
Import recommendations.

Variable sid : string.
Variable errors : list ErrorShareRow.

Lemma rec_loop_prefix (max : Z) (rows : list TopicScoreRow)
      (recs : list Recommendation) :
  rec_loop sid errors max rows recs
  = recs ++ map (recommend_topic sid errors)
                (firstn (Z.to_nat (Z.max 1 (max - Zlength_of recs))) rows).
Proof.
  revert recs. induction rows as [|r rows IH]; intros recs.
  - simpl. rewrite firstn_nil. simpl. now rewrite app_nil_r.
  - cbn [rec_loop].
    assert (Hlen : Zlength_of (recs ++ [recommend_topic sid errors r])
                   = Zlength_of recs + 1).
    { unfold Zlength_of. rewrite length_app. simpl. lia. }
    rewrite Hlen.
    destruct (max <=? Zlength_of recs + 1) eqn:E.
    + apply Z.leb_le in E.
      replace (Z.to_nat (Z.max 1 (max - Zlength_of recs))) with 1%nat by lia.
      reflexivity.
    + apply Z.leb_gt in E. rewrite IH, Hlen.
      replace (Z.to_nat (Z.max 1 (max - Zlength_of recs)))
        with (S (Z.to_nat (Z.max 1 (max - (Zlength_of recs + 1))))) by lia.
      simpl. now rewrite <- app_assoc.
Qed.

Lemma rec_loop_processed (max : Z) (rows : list TopicScoreRow) :
  rec_loop sid errors max rows []
  = map (recommend_topic sid errors) (processed_rows max rows).
Proof.
  rewrite rec_loop_prefix. unfold processed_rows, Zlength_of. simpl.
  now rewrite Z.sub_0_r.
Qed.

Lemma sub_scores_sorted (ws : list string) (scores : list TopicScoreRow) :
  Sorted (fun a b => (topic_accuracy a <= topic_accuracy b)%Q)
         (sub_scores sid ws scores).
Proof.
  unfold sub_scores.
  apply Sorted_weaken with (R := fun a b => accuracy_asc a b = true).
  - intros a b H. now apply Qle_bool_iff.
  - apply stable_sort_sorted. intros a b. apply Qle_bool_total.
Qed.

Lemma sorted_priority_asc (recs : list Recommendation) :
  Sorted (fun a b => priority a <= priority b) (stable_sort priority_asc recs).
Proof.
  apply Sorted_weaken with (R := fun a b => priority_asc a b = true).
  - intros a b H. now apply Z.leb_le.
  - apply stable_sort_sorted. intros a b. unfold priority_asc.
    rewrite Z.leb_gt, Z.leb_le. lia.
Qed.

End RecommendationFacts.

(** C3. With an empty list of weaknesses, [generate_recommendations] returns
    exactly one recommendation, of priority 2 and with a non-empty [how],
    whatever the student, the tables and the cap are. *)
Theorem generate_recommendations_no_weakness
    (sid : string) (errors : list ErrorShareRow) (scores : list TopicScoreRow)
    (max : Z) :
  exists r,
    recommendations.generate_recommendations sid [] errors scores max = [r] /\
    recommendations.priority r = 2 /\
    recommendations.how r <> [].
Proof.
  exists recommendations.maintain_pace. repeat split. discriminate.
Qed.

(** C10. With a non-empty list of weaknesses of which no topic has a row for
    the student in the topic scores, [generate_recommendations] returns the
    empty list. *)
Theorem generate_recommendations_no_matching_row
    (sid : string) (weaknesses : list string) (errors : list ErrorShareRow)
    (scores : list TopicScoreRow) (max : Z) :
  weaknesses <> [] ->
  (forall r, In r scores -> ts_student_id r = sid ->
             ~ In (ts_topic r) weaknesses) ->
  recommendations.generate_recommendations sid weaknesses errors scores max = [].
Proof.
  intros Hne Hnone. unfold recommendations.generate_recommendations.
  destruct weaknesses as [|w ws] eqn:Ew; [contradiction|]. rewrite <- Ew in *.
  assert (Hsub : recommendations.sub_scores sid weaknesses scores = []).
  { unfold recommendations.sub_scores. apply stable_sort_nil_iff.
    apply filter_nil_iff. intros r Hr. apply filter_In in Hr as [Hr Hsid].
    apply String.eqb_eq in Hsid.
    destruct (existsb _ weaknesses) eqn:Ex; [|reflexivity].
    apply existsb_exists in Ex as (t & Ht & Heq). apply String.eqb_eq in Heq.
    exfalso. apply (Hnone r Hr Hsid). now rewrite Heq. }
  rewrite Hsub. reflexivity.
Qed.

Lemma generate_recommendations_no_matching_row_witness :
  recommendations.generate_recommendations "s1" [ "B" ]%string
    [ mkErrorShareRow "s1" "B" "segno" 1 ]
    [ mkTopicScoreRow "s1" "A" 10 (3 # 10) 20 4;
      mkTopicScoreRow "s2" "B" 10 (3 # 10) 20 4 ] 5 = [].
Proof.
  apply generate_recommendations_no_matching_row.
  - discriminate.
  - intros r [<-|[<-|[]]]; simpl.
    + intros _ [H|[]]. discriminate.
    + discriminate.
Defined.

(** C4. The list [generate_recommendations] returns is sorted by ascending
    priority, and the recommendations of one priority stand in the order of
    the weak-topic rows they were made from, which is by ascending
    accuracy. *)
Theorem generate_recommendations_sorted_stable
    (sid : string) (weaknesses : list string) (errors : list ErrorShareRow)
    (scores : list TopicScoreRow) (max : Z) :
  let out :=
    recommendations.generate_recommendations sid weaknesses errors scores max in
  let rows :=
    recommendations.processed_rows max
      (recommendations.sub_scores sid weaknesses scores) in
  Sorted (fun a b => recommendations.priority a <= recommendations.priority b)
         out /\
  Sorted (fun a b => (topic_accuracy a <= topic_accuracy b)%Q) rows /\
  (weaknesses <> [] ->
   forall p,
     filter (fun r => recommendations.priority r =? p) out
     = map (recommendations.recommend_topic sid errors)
           (filter (fun r =>
                      recommendations.priority
                        (recommendations.recommend_topic sid errors r) =? p)
                   rows)).
Proof.
  intros out rows. subst out rows. split; [|split].
  - unfold recommendations.generate_recommendations.
    destruct weaknesses; [repeat constructor|]. apply sorted_priority_asc.
  - apply Sorted_firstn, sub_scores_sorted.
  - intros Hne p. unfold recommendations.generate_recommendations.
    destruct weaknesses as [|w ws] eqn:Ew; [contradiction|]. rewrite <- Ew.
    rewrite rec_loop_processed.
    unfold recommendations.priority_asc.
    rewrite (stable_sort_keeps_key_order recommendations.priority).
    generalize (recommendations.processed_rows max
                  (recommendations.sub_scores sid weaknesses scores)).
    intros l. induction l as [|r l IH]; simpl; [reflexivity|].
    destruct (_ =? p); simpl; now rewrite IH.
Qed.

Lemma generate_recommendations_sorted_stable_witness :
  map recommendations.title
      (recommendations.generate_recommendations "s1" [ "A"; "B"; "C" ]%string
         samples.weak_errors samples.weak_scores 5)
  = [ "Migliora B"; "Migliora A"; "Migliora C" ]%string /\
  map recommendations.title
      (filter (fun r => recommendations.priority r =? 2)
         (recommendations.generate_recommendations "s1" [ "A"; "B"; "C" ]%string
            samples.weak_errors samples.weak_scores 5))
  = [ "Migliora A"; "Migliora C" ]%string.
Proof.
  split; [reflexivity|].
  pose proof (generate_recommendations_sorted_stable
                "s1" [ "A"; "B"; "C" ]%string
                samples.weak_errors samples.weak_scores 5) as H.
  cbv zeta in H. destruct H as (_ & _ & H).
  rewrite H; [reflexivity|discriminate].
Defined.

(** ** Scoring *)




(** C1, at three attempts of one (student, topic) pair with three error
    types: each share is 0.3333 and the shares sum to 0.9999, which is not
    within 1e-6 of 1. *)
Theorem error_shares_sum_three_types :
  exists shares,
    scoring.compute_student_topic_error_shares samples.three_error_types
    = inr shares /\
    map error_share shares = [ 3333 # 10000; 3333 # 10000; 3333 # 10000 ] /\
    (share_sum "s1" "A" shares == 9999 # 10000)%Q /\
    ~ (Qabs (share_sum "s1" "A" shares - 1) <= 1 # 1000000)%Q.
Proof.
  eexists. split; [vm_compute; reflexivity|].
  split; [reflexivity|]. split; vm_compute; [reflexivity|].
  intros H. apply H. reflexivity.
Qed.

(** *** Rounding and grouping *)

Lemma rint_error (q : Q) : (Qabs (inject_Z (rint q) - q) <= 1 # 2)%Q.
Proof.
  unfold rint.
  pose proof (Qfloor_le q) as Hlo. pose proof (Qlt_floor q) as Hhi.
  rewrite inject_Z_plus in Hhi. change (inject_Z 1) with 1%Q in Hhi.
  apply Qabs_Qle_condition.
  destruct (Qcompare (q - inject_Z (Qfloor q)) (1 # 2)) eqn:E.
  - apply Qeq_alt in E.
    destruct (Z.even (Qfloor q));
      [|rewrite inject_Z_plus; change (inject_Z 1) with 1%Q]; split; lra.
  - apply Qlt_alt in E. split; lra.
  - apply Qgt_alt in E. rewrite inject_Z_plus.
    change (inject_Z 1) with 1%Q. split; lra.
Qed.

Lemma round4_error (q : Q) : (Qabs (round4 q - q) <= 1 # 20000)%Q.
Proof.
  pose proof (rint_error (q * 10000)) as H.
  apply Qabs_Qle_condition in H. apply Qabs_Qle_condition.
  assert (E : (round4 q == inject_Z (rint (q * 10000)) * (1 # 10000))%Q).
  { unfold round4, Qeq. simpl. lia. }
  rewrite E. split; lra.
Qed.

Lemma Zsum_map_add {A : Type} (f g : A -> Z) (l : list A) :
  Zsum (map (fun a => f a + g a) l) = Zsum (map f l) + Zsum (map g l).
Proof. induction l as [|a l IH]; simpl; lia. Qed.

Lemma Zsum_map_ext {A : Type} (f g : A -> Z) (l : list A) :
  (forall a, In a l -> f a = g a) -> Zsum (map f l) = Zsum (map g l).
Proof.
  induction l as [|a l IH]; simpl; intros H; [reflexivity|].
  rewrite (H a) by now left. rewrite IH; [reflexivity|].
  intros b Hb. apply H. now right.
Qed.

Lemma Zlength_of_Zsum {A : Type} (l : list A) :
  Zlength_of l = Zsum (map (fun _ => 1) l).
Proof.
  unfold Zlength_of. induction l as [|a l IH]; [reflexivity|].
  cbn [List.length map Zsum fold_right]. fold (Zsum (map (fun _ : A => 1) l)).
  rewrite <- IH. lia.
Qed.

Section Partition.
Context {A K : Type}.
Variable K_dec : forall a b : K, {a = b} + {a <> b}.
Variable K_leb : K -> K -> bool.
Variable key : A -> K.
Variable f : A -> Z.

Lemma group_keys_NoDup (rows : list A) :
  NoDup (group_keys K_dec K_leb key rows).
Proof.
  unfold group_keys.
  eapply Permutation_NoDup; [apply stable_sort_perm|]. apply NoDup_nodup.
Qed.

Lemma group_keys_In (rows : list A) (k : K) :
  In k (group_keys K_dec K_leb key rows) <-> exists r, In r rows /\ key r = k.
Proof.
  unfold group_keys. split.
  - intros H. apply Permutation_in with (l' := nodup K_dec (map key rows)) in H;
      [|apply Permutation_sym, stable_sort_perm].
    apply nodup_In, in_map_iff in H. destruct H as (r & Hk & Hr). eauto.
  - intros (r & Hr & Hk).
    eapply Permutation_in; [apply stable_sort_perm|].
    apply nodup_In, in_map_iff. eauto.
Qed.

Lemma Zsum_single (keys : list K) (k0 : K) (P : K -> bool) (v : Z) :
  NoDup keys -> In k0 keys ->
  Zsum (map (fun k => if K_dec k0 k then v else 0) (filter P keys))
  = if P k0 then v else 0.
Proof.
  induction keys as [|k keys IH]; intros Hnd Hin; [destruct Hin|].
  inversion Hnd as [|? ? Hk Hnd']; subst. simpl.
  assert (Hzero : ~ In k0 keys ->
            Zsum (map (fun k => if K_dec k0 k then v else 0) (filter P keys)) = 0).
  { clear. intros Hno. induction keys as [|k keys IH]; simpl; [reflexivity|].
    destruct (P k); simpl.
    - destruct (K_dec k0 k) as [->|_]; [exfalso; apply Hno; now left|].
      apply IH. intros H. apply Hno. now right.
    - apply IH. intros H. apply Hno. now right. }
  destruct Hin as [->|Hin].
  - destruct (P k0); simpl.
    + destruct (K_dec k0 k0); [|congruence]. rewrite Hzero by exact Hk. lia.
    + now apply Hzero.
  - destruct (P k) eqn:EP; simpl.
    + destruct (K_dec k0 k) as [->|_]; [contradiction|]. now apply IH.
    + now apply IH.
Qed.

Lemma Zsum_partition (rows : list A) (keys : list K) (P : K -> bool) :
  NoDup keys -> (forall r, In r rows -> In (key r) keys) ->
  Zsum (map (fun k => Zsum (map f (group_of K_dec key rows k))) (filter P keys))
  = Zsum (map f (filter (fun r => P (key r)) rows)).
Proof.
  intros Hnd. induction rows as [|r rows IH]; intros Hin.
  - simpl. induction (filter P keys); simpl; lia.
  - rewrite Zsum_map_ext
      with (g := fun k => (if K_dec (key r) k then f r else 0)
                          + Zsum (map f (group_of K_dec key rows k))).
    + rewrite Zsum_map_add, Zsum_single, IH.
      * simpl. destruct (P (key r)); reflexivity.
      * intros r' Hr'. apply Hin. now right.
      * exact Hnd.
      * apply Hin. now left.
    + intros k _. unfold group_of. simpl. destruct (K_dec (key r) k); reflexivity.
Qed.
End Partition.

Lemma Qsum_correct01 (g : list Attempt) :
  (Qsum (map scoring.correct01 g) == inject_Z (Zsum (map c01 g)))%Q.
Proof.
  induction g as [|r g IH]; [reflexivity|].
  cbn [map Qsum Zsum fold_right]. fold (Qsum (map scoring.correct01 g)).
  fold (Zsum (map c01 g)). rewrite inject_Z_plus, IH.
  unfold scoring.correct01, c01. destruct (is_correct r); reflexivity.
Qed.

Lemma Zlength_of_pos {A : Type} (l : list A) : l <> [] -> 0 < Zlength_of l.
Proof. destruct l; [congruence|]. intros _. unfold Zlength_of. simpl. lia. Qed.

Lemma mean_correct01 (g : list Attempt) :
  g <> [] ->
  (inject_Z (Zlength_of g) * mean (map scoring.correct01 g)
   == inject_Z (Zsum (map c01 g)))%Q.
Proof.
  intros Hne. unfold mean. rewrite Qsum_correct01.
  assert (E : Zlength_of (map scoring.correct01 g) = Zlength_of g).
  { unfold Zlength_of. now rewrite length_map. }
  rewrite E. field.
  apply Zlength_of_pos in Hne. intros H0.
  assert (Hq : (0 < inject_Z (Zlength_of g))%Q).
  { rewrite <- (Zlt_Qlt 0). exact Hne. }
  rewrite H0 in Hq. now apply Qlt_irrefl in Hq.
Qed.

Lemma weighted_round_error (gs : list (list Attempt)) :
  Forall (fun g => g <> []) gs ->
  (Qabs (Qsum (map (fun g => inject_Z (Zlength_of g)
                               * round4 (mean (map scoring.correct01 g))) gs)
         - inject_Z (Zsum (map (fun g => Zsum (map c01 g)) gs)))
   <= inject_Z (Zsum (map (fun g => Zlength_of g) gs)) * (1 # 20000))%Q.
Proof.
  induction 1 as [|g gs Hg Hgs IH].
  - vm_compute. discriminate.
  - cbn [map Qsum Zsum fold_right].
    rewrite !inject_Z_plus.
    apply Qabs_Qle_condition in IH. apply Qabs_Qle_condition.
    pose proof (round4_error (mean (map scoring.correct01 g))) as Hr.
    apply Qabs_Qle_condition in Hr.
    pose proof (mean_correct01 g Hg) as Hm.
    assert (Hn : (0 < inject_Z (Zlength_of g))%Q).
    { rewrite <- (Zlt_Qlt 0). now apply Zlength_of_pos. }
    fold (Zsum (map (fun g => Zlength_of g) gs)).
    fold (Zsum (map (fun g => Zsum (map c01 g)) gs)).
    fold (Qsum (map (fun g => (inject_Z (Zlength_of g)
                               * round4 (mean (map scoring.correct01 g)))%Q) gs)).
    fold (Zsum (map c01 g)).
    set (n := inject_Z (Zlength_of g)) in *.
    set (m := mean (map scoring.correct01 g)) in *.
    set (r := round4 m) in *.
    split; nra.
Qed.

Lemma filter_map_comm {A B : Type} (f : A -> B) (p : B -> bool) (l : list A) :
  filter p (map f l) = map f (filter (fun a => p (f a)) l).
Proof.
  induction l as [|a l IH]; simpl; [reflexivity|].
  destruct (p (f a)); simpl; now rewrite IH.
Qed.

Lemma filter_eqb_NoDup (k : string) (l : list string) :
  NoDup l -> In k l -> filter (fun x => String.eqb x k) l = [k].
Proof.
  induction l as [|x l IH]; intros Hnd Hin; [destruct Hin|].
  inversion Hnd as [|? ? Hx Hnd']; subst. simpl.
  destruct (String.eqb x k) eqn:E.
  - apply String.eqb_eq in E. subst x. f_equal.
    apply filter_nil_iff. intros y Hy. apply String.eqb_neq. congruence.
  - destruct Hin as [->|Hin]; [rewrite String.eqb_refl in E; discriminate|].
    now apply IH.
Qed.

Lemma group_of_student (rows : list Attempt) (sid : string) :
  group_of string_dec student_id rows sid
  = filter (fun r => String.eqb (student_id r) sid) rows.
Proof.
  unfold group_of. apply filter_ext. intros r.
  destruct (string_dec (student_id r) sid) as [->|Hne].
  - now rewrite String.eqb_refl.
  - symmetry. now apply String.eqb_neq.
Qed.

Section Reconcile.
Variable rows : list Attempt.
Variable sid : string.
Hypothesis sid_present : In sid (map student_id rows).

Let key2 (r : Attempt) : string * string := (student_id r, topic r).
Let G (k : string * string) : list Attempt := group_of pair_dec key2 rows k.
Let G1 : list Attempt := group_of string_dec student_id rows sid.
Let ks : list (string * string) :=
  filter (fun k => String.eqb (fst k) sid) (group_keys pair_dec pair_leb key2 rows).

Lemma G1_nonempty : G1 <> [].
Proof.
  apply in_map_iff in sid_present. destruct sid_present as (r & Hs & Hr).
  unfold G1. rewrite group_of_student. intros H.
  pose proof (proj1 (filter_nil_iff _ _) H r Hr) as Hf. simpl in Hf.
  rewrite Hs, String.eqb_refl in Hf. discriminate.
Qed.

Lemma groups_nonempty : Forall (fun g => g <> []) (map G ks).
Proof.
  apply Forall_forall. intros g Hg. apply in_map_iff in Hg.
  destruct Hg as (k & <- & Hk). apply filter_In in Hk as [Hk _].
  apply group_keys_In in Hk. destruct Hk as (r & Hr & Hkey).
  unfold G, group_of. intros H.
  pose proof (proj1 (filter_nil_iff _ _) H r Hr) as Hf. cbv beta in Hf.
  destruct (pair_dec (key2 r) k); [discriminate|contradiction].
Qed.

Lemma groups_partition (f : Attempt -> Z) :
  Zsum (map (fun k => Zsum (map f (G k))) ks) = Zsum (map f G1).
Proof.
  unfold ks, G, G1. rewrite group_of_student.
  apply (Zsum_partition pair_dec key2 f rows
           (group_keys pair_dec pair_leb key2 rows)
           (fun k => String.eqb (fst k) sid)).
  - apply group_keys_NoDup.
  - intros r Hr. apply group_keys_In. eauto.
Qed.

Lemma reconcile_bound :
  (Qabs (round4 (mean (map scoring.correct01 G1))
         - Qsum (map (fun k => inject_Z (Zlength_of (G k))
                               * round4 (mean (map scoring.correct01 (G k)))) ks)
           / inject_Z (Zsum (map (fun k => Zlength_of (G k)) ks)))
   <= 1 # 10000)%Q.
Proof.
  pose proof (weighted_round_error (map G ks) groups_nonempty) as Hw.
  rewrite !map_map in Hw.
  rewrite (groups_partition c01) in Hw.
  assert (HN : Zsum (map (fun k => Zlength_of (G k)) ks) = Zlength_of G1).
  { rewrite (Zlength_of_Zsum G1), <- (groups_partition (fun _ => 1)).
    apply Zsum_map_ext. intros k _. apply Zlength_of_Zsum. }
  rewrite HN in Hw |- *.
  pose proof (mean_correct01 G1 G1_nonempty) as Hm.
  pose proof (round4_error (mean (map scoring.correct01 G1))) as Hr.
  assert (Hn : (0 < inject_Z (Zlength_of G1))%Q).
  { rewrite <- (Zlt_Qlt 0). apply Zlength_of_pos, G1_nonempty. }
  set (W := Qsum _) in *.
  set (n := inject_Z (Zlength_of G1)) in *.
  set (m := mean (map scoring.correct01 G1)) in *.
  set (r := round4 m) in *.
  set (c := inject_Z (Zsum (map c01 G1))) in *.
  assert (Hdiv : (W / n == m + (W - c) / n)%Q).
  { rewrite <- Hm. field. intros H0. rewrite H0 in Hn. now apply Qlt_irrefl in Hn. }
  rewrite Hdiv.
  apply Qabs_Qle_condition in Hw, Hr. apply Qabs_Qle_condition.
  assert (Hq : (- (1 # 20000) <= (W - c) / n <= 1 # 20000)%Q).
  { split.
    - apply Qle_shift_div_l; [exact Hn|]. lra.
    - apply Qle_shift_div_r; [exact Hn|]. lra. }
  split; lra.
Qed.
End Reconcile.

Lemma bind_inr {A B : Type} (m : result A) (k : A -> result B) (b : B) :
  bind m k = inr b -> exists a, m = inr a /\ k a = inr b.
Proof. destruct m as [e|a]; simpl; [discriminate|eauto]. Qed.

(** C2, as the code has it: both accuracies are rounded to four decimals, so
    for every student of the attempt table the overall accuracy and the mean
    of the student's per-topic accuracies weighted by [topic_n_questions]
    agree to within 1e-4. *)
Theorem overall_accuracy_reconciles
    (df : DataFrame) (ts : list TopicScoreRow) (ov : list OverallRow)
    (sid : string) :
  scoring.compute_student_topic_scores df = inr ts ->
  scoring.compute_student_overall_summary df = inr ov ->
  In sid (map student_id (df_rows df)) ->
  exists o,
    filter (fun r => String.eqb (ov_student_id r) sid) ov = [o] /\
    (Qabs (overall_accuracy o
           - count_weighted_accuracy
               (filter (fun r => String.eqb (ts_student_id r) sid) ts))
     <= 1 # 10000)%Q.
Proof.
  intros Hts Hov Hsid.
  unfold scoring.compute_student_topic_scores in Hts.
  apply bind_inr in Hts as (_ & _ & Hts). apply bind_inr in Hts as (_ & _ & Hts).
  unfold scoring.compute_student_overall_summary in Hov.
  apply bind_inr in Hov as (_ & _ & Hov). apply bind_inr in Hov as (_ & _ & Hov).
  injection Hts as <-. injection Hov as <-.
  unfold groupby. rewrite !map_map, !filter_map_comm. cbn [ov_student_id ts_student_id fst snd].
  rewrite filter_eqb_NoDup.
  - eexists. split; [reflexivity|].
    cbn [map overall_accuracy]. unfold count_weighted_accuracy.
    rewrite !map_map. cbn [topic_n_questions topic_accuracy].
    apply (reconcile_bound (df_rows df) sid Hsid).
  - apply group_keys_NoDup.
  - apply group_keys_In. apply in_map_iff in Hsid as (r & Hr & Hin). eauto.
Qed.

Lemma overall_accuracy_reconciles_witness :
  match scoring.compute_student_topic_scores samples.two_topics,
        scoring.compute_student_overall_summary samples.two_topics with
  | inr ts, inr ov =>
      exists o,
        filter (fun r => String.eqb (ov_student_id r) "s1") ov = [o] /\
        (Qabs (overall_accuracy o
               - count_weighted_accuracy
                   (filter (fun r => String.eqb (ts_student_id r) "s1") ts))
         <= 1 # 10000)%Q
  | _, _ => False
  end.
Proof.
  destruct (scoring.compute_student_topic_scores samples.two_topics)
    as [e|ts] eqn:Ets; [vm_compute in Ets; discriminate|].
  destruct (scoring.compute_student_overall_summary samples.two_topics)
    as [e|ov] eqn:Eov; [vm_compute in Eov; discriminate|].
  apply (overall_accuracy_reconciles samples.two_topics ts ov "s1" Ets Eov).
  vm_compute. tauto.
Defined.

(** C2, as it is stated, fails: with one correct answer out of three in one
    topic and one out of one in another, the overall accuracy is 0.5 and the
    weighted mean of the topic accuracies 0.3333 and 1.0 is 0.499975. *)
Lemma overall_accuracy_not_weighted_mean :
  exists ts ov o,
    scoring.compute_student_topic_scores samples.two_topics = inr ts /\
    scoring.compute_student_overall_summary samples.two_topics = inr ov /\
    filter (fun r => String.eqb (ov_student_id r) "s1") ov = [o] /\
    (overall_accuracy o == 1 # 2)%Q /\
    (count_weighted_accuracy
       (filter (fun r => String.eqb (ts_student_id r) "s1") ts)
     == 19999 # 40000)%Q /\
    ~ (overall_accuracy o
       == count_weighted_accuracy
            (filter (fun r => String.eqb (ts_student_id r) "s1") ts))%Q.
Proof.
  do 3 eexists. split; [vm_compute; reflexivity|].
  split; [vm_compute; reflexivity|]. split; [reflexivity|].
  split; [reflexivity|]. split; [reflexivity|]. vm_compute. discriminate.
Qed.

(** *** The left join of the error shares *)

Lemma filter_pair_NoDup (k : string * string) (l : list (string * string)) :
  NoDup l -> In k l ->
  filter (fun x => andb (String.eqb (fst x) (fst k)) (String.eqb (snd x) (snd k))) l
  = [k].
Proof.
  assert (Heq : forall x, andb (String.eqb (fst x) (fst k))
                               (String.eqb (snd x) (snd k)) = true <-> x = k).
  { intros [a b]. destruct k as [a' b']. simpl.
    rewrite andb_true_iff, !String.eqb_eq. split; [intros [-> ->]|intros [= -> ->]]; auto. }
  induction l as [|x l IH]; intros Hnd Hin; [destruct Hin|].
  inversion Hnd as [|? ? Hx Hnd']; subst. simpl.
  destruct (andb _ _) eqn:E.
  - apply Heq in E. subst x. f_equal.
    apply filter_nil_iff. intros y Hy.
    destruct (andb _ _) eqn:E'; [|reflexivity]. apply Heq in E'. congruence.
  - destruct Hin as [->|Hin]; [|now apply IH].
    assert (Ek : k = k) by reflexivity. apply Heq in Ek. congruence.
Qed.

Lemma merge_totals_rows (counts l : list scoring.CountRow) :
  (forall c, In c l -> In c counts) ->
  map fst (scoring.merge_totals l (scoring.totals_of counts)) = l.
Proof.
  unfold scoring.merge_totals, scoring.totals_of, groupby.
  rewrite map_map.
  induction l as [|c l IH]; intros Hall; [reflexivity|].
  cbn [flat_map]. rewrite map_app, IH by (intros c' Hc'; apply Hall; now right).
  rewrite filter_map_comm. cbn [scoring.t_student_id scoring.t_topic].
  rewrite (filter_pair_NoDup (scoring.c_student_id c, scoring.c_topic c)).
  - reflexivity.
  - apply group_keys_NoDup.
  - apply group_keys_In. exists c. split; [apply Hall; now left|reflexivity].
Qed.

(** The left join leaves no row of [counts] without its total. *)
Lemma merge_totals_left (counts : list scoring.CountRow) :
  map fst (scoring.merge_totals counts (scoring.totals_of counts)) = counts.
Proof. apply merge_totals_rows. auto. Qed.

(** ** The worked examples of the specification *)

Example spec_example_topic_scores :
  scoring.compute_student_topic_scores samples.spec_example
  = inr [ mkTopicScoreRow "s1" "A" 3 (6667 # 10000) (2000 # 100) (300 # 100) ].
Proof. reflexivity. Qed.

Example spec_example_error_shares :
  scoring.compute_student_topic_error_shares samples.spec_example
  = inr [ mkErrorShareRow "s1" "A" "algebra" (3333 # 10000);
          mkErrorShareRow "s1" "A" "none" (6667 # 10000) ].
Proof. reflexivity. Qed.

Example spec_example_labels :
  profiling._label_topic (4 # 10) = profiling.weakness /\
  profiling._accuracy_to_level (4 # 10) = config.beginner /\
  profiling._label_topic (9 # 10) = profiling.strength /\
  profiling._accuracy_to_level (9 # 10) = config.advanced.
Proof. repeat split. Qed.

Example spec_example_recommendation :
  map recommendations.priority
      (recommendations.generate_recommendations "s1" [ "B" ]%string
         [ mkErrorShareRow "s1" "B" "segno" (6 # 10);
           mkErrorShareRow "s1" "B" "distrazione" (4 # 10) ]
         [ mkTopicScoreRow "s1" "B" 10 (4 # 10) 40 3 ] 5)
  = [ 1 ] /\
  recommendations._top_error_types_for_topic "s1" "B"
    [ mkErrorShareRow "s1" "B" "distrazione" (4 # 10);
      mkErrorShareRow "s1" "B" "segno" (6 # 10) ] 2
  = [ ("segno"%string, 6 # 10); ("distrazione"%string, 4 # 10) ].
Proof. split; reflexivity. Qed.

(** ** Further properties of scoring *)

Lemma has_column_In (df : DataFrame) (c : string) :
  has_column df c = true <-> In c (df_columns df).
Proof.
  unfold has_column. rewrite existsb_exists. split.
  - intros (x & Hx & E). apply String.eqb_eq in E. now subst.
  - intros H. exists c. split; [exact H|apply String.eqb_refl].
Qed.

Lemma missing_nil_iff (df : DataFrame) (cols : list string) :
  filter (fun c => negb (has_column df c)) cols = []
  <-> forall c, In c cols -> In c (df_columns df).
Proof.
  rewrite filter_nil_iff. split; intros H c Hc.
  - apply has_column_In. specialize (H c Hc). now apply negb_false_iff in H.
  - apply negb_false_iff, has_column_In. now apply H.
Qed.


Lemma load_raw_answers_ok (df : DataFrame) :
  (forall c, In c scoring.required -> In c (df_columns df)) ->
  scoring.load_raw_answers df = inr df.
Proof.
  intros H. unfold scoring.load_raw_answers.
  now rewrite (proj2 (missing_nil_iff df scoring.required) H).
Qed.

(** X1. [load_raw_answers] returns the frame it was given, unchanged, exactly
    when every required column is in its header. *)
Theorem load_raw_answers_succeeds_iff (df : DataFrame) :
  (forall c, In c scoring.required -> In c (df_columns df))
  <-> scoring.load_raw_answers df = inr df.
Proof.
  split; [apply load_raw_answers_ok|].
  unfold scoring.load_raw_answers. rewrite <- missing_nil_iff.
  destruct (filter _ scoring.required); [reflexivity|discriminate].
Qed.



Lemma rint_between (q : Q) (a b : Z) :
  (inject_Z a <= q)%Q -> (q <= inject_Z b)%Q -> a <= rint q <= b.
Proof.
  intros Ha Hb. pose proof (rint_error q) as He.
  apply Qabs_Qle_condition in He. destruct He as [He1 He2].
  split.
  - assert (H : (inject_Z (a - 1) < inject_Z (rint q))%Q).
    { replace (a - 1) with (a + (-1)) by lia.
      rewrite inject_Z_plus. change (inject_Z (-1)) with (-1)%Q. lra. }
    rewrite <- Zlt_Qlt in H. lia.
  - assert (H : (inject_Z (rint q) < inject_Z (b + 1))%Q).
    { rewrite inject_Z_plus. change (inject_Z 1) with 1%Q. lra. }
    rewrite <- Zlt_Qlt in H. lia.
Qed.

Lemma round4_unit (q : Q) : (0 <= q <= 1)%Q -> (0 <= round4 q <= 1)%Q.
Proof.
  intros [H0 H1].
  destruct (rint_between (q * 10000) 0 10000) as [Ha Hb].
  - change (inject_Z 0) with 0%Q. lra.
  - change (inject_Z 10000) with 10000%Q. lra.
  - unfold round4, Qle. simpl. lia.
Qed.

Lemma Zsum_map_le {A : Type} (f g : A -> Z) (l : list A) :
  (forall a, f a <= g a) -> Zsum (map f l) <= Zsum (map g l).
Proof.
  intros H. induction l as [|a l IH]; simpl; [lia|]. specialize (H a). lia.
Qed.

Lemma c01_sum_bounds (g : list Attempt) :
  0 <= Zsum (map c01 g) <= Zlength_of g.
Proof.
  rewrite Zlength_of_Zsum. split.
  - replace 0 with (Zsum (map (fun _ : Attempt => 0) g)).
    + apply Zsum_map_le. intros a. unfold c01. destruct (is_correct a); lia.
    + induction g as [|a g IH]; simpl; [reflexivity|exact IH].
  - apply Zsum_map_le. intros a. unfold c01. destruct (is_correct a); lia.
Qed.

Lemma mean_correct01_unit (g : list Attempt) :
  g <> [] -> (0 <= mean (map scoring.correct01 g) <= 1)%Q.
Proof.
  intros Hne. pose proof (mean_correct01 g Hne) as Hm.
  pose proof (c01_sum_bounds g) as [Hc0 Hc1].
  assert (Hn : (0 < inject_Z (Zlength_of g))%Q).
  { rewrite <- (Zlt_Qlt 0). now apply Zlength_of_pos. }
  rewrite Zle_Qle in Hc0, Hc1. change (inject_Z 0) with 0%Q in Hc0.
  rewrite <- Hm in Hc0, Hc1.
  set (n := inject_Z (Zlength_of g)) in *.
  set (m := mean (map scoring.correct01 g)) in *.
  split; nra.
Qed.

Lemma group_of_pair (rows : list Attempt) (s t : string) :
  group_of pair_dec (fun r => (student_id r, topic r)) rows (s, t)
  = attempts_of_pair s t rows.
Proof.
  unfold group_of, attempts_of_pair. apply filter_ext. intros r.
  destruct (pair_dec (student_id r, topic r) (s, t)) as [E|Hne].
  - injection E as -> ->. now rewrite !String.eqb_refl.
  - symmetry. apply andb_false_iff.
    destruct (String.eqb (student_id r) s) eqn:E1; [|now left].
    destruct (String.eqb (topic r) t) eqn:E2; [|now right].
    apply String.eqb_eq in E1, E2. subst. congruence.
Qed.

Lemma group_of_nonempty {A K : Type} (K_dec : forall a b : K, {a = b} + {a <> b})
      (K_leb : K -> K -> bool) (key : A -> K) (rows : list A) (k : K) :
  In k (group_keys K_dec K_leb key rows) -> group_of K_dec key rows k <> [].
Proof.
  intros Hk. apply group_keys_In in Hk. destruct Hk as (r & Hr & Hkey).
  unfold group_of. intros H.
  pose proof (proj1 (filter_nil_iff _ _) H r Hr) as Hf. cbv beta in Hf.
  destruct (K_dec (key r) k); [discriminate|contradiction].
Qed.

(** The rows of the topic-score table, key by key. *)
Lemma topic_scores_rows (df : DataFrame) (ts : list TopicScoreRow) :
  scoring.compute_student_topic_scores df = inr ts ->
  ts = map (fun k =>
              let g := attempts_of_pair (fst k) (snd k) (df_rows df) in
              {| ts_student_id := fst k;
                 ts_topic := snd k;
                 topic_n_questions := Zlength_of g;
                 topic_accuracy := round4 (mean (map scoring.correct01 g));
                 topic_avg_time_seconds := round2 (mean (map time_seconds g));
                 topic_avg_confidence :=
                   round2 (mean (map (fun r => inject_Z (confidence r)) g)) |})
           (group_keys pair_dec pair_leb (fun r => (student_id r, topic r))
                       (df_rows df)).
Proof.
  intros Hts. unfold scoring.compute_student_topic_scores in Hts.
  apply bind_inr in Hts as (_ & _ & Hts). apply bind_inr in Hts as (_ & _ & Hts).
  injection Hts as <-. unfold groupby. rewrite map_map.
  apply map_ext. intros [s t]. cbn [fst snd]. now rewrite group_of_pair.
Qed.

(** X3. The topic-score table has exactly one row for each (student, topic)
    pair that occurs in the attempts, and no other row. *)
Theorem topic_scores_one_row_per_pair
    (df : DataFrame) (ts : list TopicScoreRow) :
  scoring.compute_student_topic_scores df = inr ts ->
  NoDup (map (fun r => (ts_student_id r, ts_topic r)) ts) /\
  (forall s t,
      In (s, t) (map (fun r => (ts_student_id r, ts_topic r)) ts)
      <-> exists a, In a (df_rows df) /\ student_id a = s /\ topic a = t).
Proof.
  intros Hts. apply topic_scores_rows in Hts. subst ts.
  rewrite map_map. cbn [ts_student_id ts_topic].
  rewrite (map_ext _ (fun k => k)) by (now intros [s t]). rewrite map_id.
  split; [apply group_keys_NoDup|].
  intros s t. rewrite group_keys_In. split.
  - intros (a & Ha & [= <- <-]). eauto.
  - intros (a & Ha & <- & <-). eauto.
Qed.

(** X4. In a row of the topic-score table, [topic_n_questions] is the number
    of attempts of the pair, which is at least 1, and [topic_accuracy] lies
    in [0, 1]. *)
Theorem topic_scores_row_bounds
    (df : DataFrame) (ts : list TopicScoreRow) (r : TopicScoreRow) :
  scoring.compute_student_topic_scores df = inr ts ->
  In r ts ->
  topic_n_questions r
  = Zlength_of (attempts_of_pair (ts_student_id r) (ts_topic r) (df_rows df)) /\
  1 <= topic_n_questions r /\
  (0 <= topic_accuracy r <= 1)%Q.
Proof.
  intros Hts Hr. apply topic_scores_rows in Hts. subst ts.
  apply in_map_iff in Hr. destruct Hr as ([s t] & <- & Hk).
  cbn [ts_student_id ts_topic topic_n_questions topic_accuracy fst snd].
  apply group_of_nonempty in Hk. rewrite group_of_pair in Hk.
  split; [reflexivity|]. split.
  - apply Zlength_of_pos in Hk. lia.
  - apply round4_unit, mean_correct01_unit, Hk.
Qed.

(** X5. For a student of the attempt table, the overall summary has exactly
    one row; its [overall_n_questions] is the number of the student's
    attempts and the sum of [topic_n_questions] over the student's
    topic-score rows. *)
Theorem question_counts_reconcile
    (df : DataFrame) (ts : list TopicScoreRow) (ov : list OverallRow)
    (sid : string) :
  scoring.compute_student_topic_scores df = inr ts ->
  scoring.compute_student_overall_summary df = inr ov ->
  In sid (map student_id (df_rows df)) ->
  exists o,
    filter (fun r => String.eqb (ov_student_id r) sid) ov = [o] /\
    overall_n_questions o
    = Zlength_of (filter (fun a => String.eqb (student_id a) sid) (df_rows df)) /\
    overall_n_questions o
    = Zsum (map topic_n_questions (topic_rows_of sid ts)).
Proof.
  intros Hts Hov Hsid.
  unfold scoring.compute_student_topic_scores in Hts.
  apply bind_inr in Hts as (_ & _ & Hts). apply bind_inr in Hts as (_ & _ & Hts).
  unfold scoring.compute_student_overall_summary in Hov.
  apply bind_inr in Hov as (_ & _ & Hov). apply bind_inr in Hov as (_ & _ & Hov).
  injection Hts as <-. injection Hov as <-.
  unfold topic_rows_of, groupby.
  rewrite !map_map, !filter_map_comm. cbn [ov_student_id ts_student_id fst snd].
  rewrite filter_eqb_NoDup.
  - eexists. split; [reflexivity|].
    cbn [map overall_n_questions]. rewrite map_map. cbn [topic_n_questions].
    rewrite group_of_student. split; [reflexivity|].
    rewrite (Zlength_of_Zsum (filter _ _)), <- group_of_student.
    rewrite <- (groups_partition (df_rows df) sid (fun _ => 1)).
    apply Zsum_map_ext. intros k _. symmetry. apply Zlength_of_Zsum.
  - apply group_keys_NoDup.
  - apply group_keys_In. apply in_map_iff in Hsid as (r & Hr & Hin). eauto.
Qed.

Lemma question_counts_reconcile_witness :
  match scoring.compute_student_topic_scores samples.two_topics,
        scoring.compute_student_overall_summary samples.two_topics with
  | inr ts, inr ov =>
      exists o,
        filter (fun r => String.eqb (ov_student_id r) "s1") ov = [o] /\
        overall_n_questions o
        = Zlength_of (filter (fun a => String.eqb (student_id a) "s1")
                             (df_rows samples.two_topics)) /\
        overall_n_questions o
        = Zsum (map topic_n_questions (topic_rows_of "s1" ts))
  | _, _ => False
  end.
Proof.
  destruct (scoring.compute_student_topic_scores samples.two_topics)
    as [e|ts] eqn:Ets; [vm_compute in Ets; discriminate|].
  destruct (scoring.compute_student_overall_summary samples.two_topics)
    as [e|ov] eqn:Eov; [vm_compute in Eov; discriminate|].
  apply (question_counts_reconcile samples.two_topics ts ov "s1" Ets Eov).
  vm_compute. tauto.
Defined.

Lemma topic_scores_row_bounds_witness :
  match scoring.compute_student_topic_scores samples.two_topics with
  | inr (r :: _) =>
      topic_n_questions r
      = Zlength_of (attempts_of_pair (ts_student_id r) (ts_topic r)
                                     (df_rows samples.two_topics)) /\
      1 <= topic_n_questions r /\
      (0 <= topic_accuracy r <= 1)%Q
  | _ => False
  end.
Proof.
  destruct (scoring.compute_student_topic_scores samples.two_topics)
    as [e|[|r ts]] eqn:Ets; try (vm_compute in Ets; discriminate).
  apply (topic_scores_row_bounds samples.two_topics (r :: ts) r Ets).
  now left.
Defined.

Lemma topic_scores_one_row_per_pair_witness :
  match scoring.compute_student_topic_scores samples.two_topics with
  | inr ts => NoDup (map (fun r => (ts_student_id r, ts_topic r)) ts)
  | inl _ => False
  end.
Proof.
  destruct (scoring.compute_student_topic_scores samples.two_topics)
    as [e|ts] eqn:Ets; [vm_compute in Ets; discriminate|].
  apply (topic_scores_one_row_per_pair samples.two_topics ts Ets).
Defined.

(** *** The error shares, key by key *)

Lemma counts_of_rows (rows : list Attempt) :
  scoring.counts_of rows
  = map (fun k : string * string * string =>
           {| scoring.c_student_id := fst (fst k);
              scoring.c_topic := snd (fst k);
              scoring.c_error_type := snd k;
              scoring.c_n := Zlength_of (group_of triple_dec key3 rows k) |})
        (group_keys triple_dec triple_leb key3 rows).
Proof. unfold scoring.counts_of, groupby. now rewrite map_map. Qed.

Lemma group_of_count_pair (counts : list scoring.CountRow) (s t : string) :
  group_of pair_dec (fun c => (scoring.c_student_id c, scoring.c_topic c))
           counts (s, t)
  = filter (fun c => andb (String.eqb (scoring.c_student_id c) s)
                          (String.eqb (scoring.c_topic c) t)) counts.
Proof.
  unfold group_of. apply filter_ext. intros c.
  destruct (pair_dec _ (s, t)) as [E|Hne].
  - injection E as -> ->. now rewrite !String.eqb_refl.
  - symmetry. apply andb_false_iff.
    destruct (String.eqb (scoring.c_student_id c) s) eqn:E1; [|now left].
    destruct (String.eqb (scoring.c_topic c) t) eqn:E2; [|now right].
    apply String.eqb_eq in E1, E2. subst. congruence.
Qed.

Lemma merge_totals_pairs (counts l : list scoring.CountRow) :
  (forall c, In c l -> In c counts) ->
  scoring.merge_totals l (scoring.totals_of counts)
  = map (fun c =>
           (c, Zsum (map scoring.c_n
                         (filter (fun c' =>
                                    andb (String.eqb (scoring.c_student_id c')
                                                     (scoring.c_student_id c))
                                         (String.eqb (scoring.c_topic c')
                                                     (scoring.c_topic c)))
                                 counts)))) l.
Proof.
  unfold scoring.merge_totals, scoring.totals_of, groupby.
  rewrite map_map.
  induction l as [|c l IH]; intros Hall; [reflexivity|].
  cbn [flat_map map]. rewrite IH by (intros c' Hc'; apply Hall; now right).
  rewrite filter_map_comm. cbn [scoring.t_student_id scoring.t_topic].
  rewrite (filter_pair_NoDup (scoring.c_student_id c, scoring.c_topic c)).
  - cbn [map app scoring.total_n fst snd]. now rewrite group_of_count_pair.
  - apply group_keys_NoDup.
  - apply group_keys_In. exists c. split; [apply Hall; now left|reflexivity].
Qed.

Lemma pair_total (rows : list Attempt) (s t : string) :
  Zsum (map scoring.c_n
            (filter (fun c' => andb (String.eqb (scoring.c_student_id c') s)
                                    (String.eqb (scoring.c_topic c') t))
                    (scoring.counts_of rows)))
  = Zlength_of (attempts_of_pair s t rows).
Proof.
  rewrite counts_of_rows, filter_map_comm, map_map.
  cbn [scoring.c_student_id scoring.c_topic scoring.c_n].
  rewrite (Zsum_map_ext _ (fun k => Zsum (map (fun _ => 1)
                                              (group_of triple_dec key3 rows k))))
    by (intros k _; apply Zlength_of_Zsum).
  rewrite (Zsum_partition triple_dec key3 (fun _ => 1) rows
             (group_keys triple_dec triple_leb key3 rows)
             (fun k => andb (String.eqb (fst (fst k)) s)
                            (String.eqb (snd (fst k)) t))).
  - symmetry. apply Zlength_of_Zsum.
  - apply group_keys_NoDup.
  - intros r Hr. apply group_keys_In. eauto.
Qed.

(** The rows of the error-share table, key by key. *)
Lemma error_shares_rows (df : DataFrame) (es : list ErrorShareRow) :
  scoring.compute_student_topic_error_shares df = inr es ->
  es = map (fun k : string * string * string =>
              {| es_student_id := fst (fst k);
                 es_topic := snd (fst k);
                 es_error_type := snd k;
                 error_share :=
                   round4
                     (inject_Z (Zlength_of (group_of triple_dec key3 (df_rows df) k))
                      / inject_Z (Zlength_of
                                    (attempts_of_pair (fst (fst k)) (snd (fst k))
                                                      (df_rows df)))) |})
           (group_keys triple_dec triple_leb key3 (df_rows df)).
Proof.
  intros Hes. unfold scoring.compute_student_topic_error_shares in Hes.
  apply bind_inr in Hes as (_ & _ & Hes). injection Hes as <-.
  rewrite merge_totals_pairs by auto. rewrite map_map.
  rewrite (map_ext _
             (fun c => {| es_student_id := scoring.c_student_id c;
                          es_topic := scoring.c_topic c;
                          es_error_type := scoring.c_error_type c;
                          error_share :=
                            round4 (inject_Z (scoring.c_n c)
                                    / inject_Z (Zlength_of
                                         (attempts_of_pair (scoring.c_student_id c)
                                            (scoring.c_topic c) (df_rows df)))) |}))
    by (intros c; now rewrite pair_total).
  rewrite counts_of_rows, map_map. reflexivity.
Qed.

Lemma Zlength_filter_le {A : Type} (f g : A -> bool) (l : list A) :
  (forall a, f a = true -> g a = true) ->
  Zlength_of (filter f l) <= Zlength_of (filter g l).
Proof.
  intros H. unfold Zlength_of. apply inj_le.
  induction l as [|a l IH]; simpl; [lia|].
  destruct (f a) eqn:Ef.
  - rewrite (H a Ef). simpl. lia.
  - destruct (g a); simpl; lia.
Qed.

Lemma group_of_triple_le (rows : list Attempt) (k : string * string * string) :
  Zlength_of (group_of triple_dec key3 rows k)
  <= Zlength_of (attempts_of_pair (fst (fst k)) (snd (fst k)) rows).
Proof.
  unfold group_of, attempts_of_pair. apply Zlength_filter_le.
  intros a Ha. destruct (triple_dec (key3 a) k) as [<-|]; [|discriminate].
  cbn [key3 fst snd]. now rewrite !String.eqb_refl.
Qed.

(** X6. The error-share table is sparse: it has exactly one row for each
    (student, topic, error type) triple that occurs in the attempts, and no
    other row. *)
Theorem error_shares_one_row_per_triple
    (df : DataFrame) (es : list ErrorShareRow) :
  scoring.compute_student_topic_error_shares df = inr es ->
  NoDup (map (fun r => (es_student_id r, es_topic r, es_error_type r)) es) /\
  (forall s t e,
      In (s, t, e) (map (fun r => (es_student_id r, es_topic r, es_error_type r)) es)
      <-> exists a, In a (df_rows df) /\
                    student_id a = s /\ topic a = t /\ error_type a = e).
Proof.
  intros Hes. apply error_shares_rows in Hes. subst es.
  rewrite map_map. cbn [es_student_id es_topic es_error_type].
  rewrite (map_ext _ (fun k => k)) by (now intros [[s t] e]). rewrite map_id.
  split; [apply group_keys_NoDup|].
  intros s t e. rewrite group_keys_In. unfold key3. split.
  - intros (a & Ha & [= <- <- <-]). eauto.
  - intros (a & Ha & <- & <- & <-). eauto.
Qed.

(** X7. Every share of the error-share table lies in [0, 1]. *)
Theorem error_shares_unit_interval
    (df : DataFrame) (es : list ErrorShareRow) (r : ErrorShareRow) :
  scoring.compute_student_topic_error_shares df = inr es ->
  In r es ->
  (0 <= error_share r <= 1)%Q.
Proof.
  intros Hes Hr. apply error_shares_rows in Hes. subst es.
  apply in_map_iff in Hr. destruct Hr as (k & <- & Hk).
  cbn [error_share]. apply round4_unit.
  pose proof (group_of_triple_le (df_rows df) k) as Hle.
  pose proof (Zlength_of_pos _ (group_of_nonempty _ _ _ _ _ Hk)) as Hpos.
  set (n := Zlength_of (group_of triple_dec key3 (df_rows df) k)) in *.
  set (t := Zlength_of (attempts_of_pair _ _ _)) in *.
  assert (Ht : (0 < inject_Z t)%Q) by (rewrite <- (Zlt_Qlt 0); lia).
  assert (Hn : (0 <= inject_Z n)%Q) by (rewrite <- (Zle_Qle 0); lia).
  assert (Hnt : (inject_Z n <= inject_Z t)%Q) by (now rewrite <- Zle_Qle).
  split.
  - apply Qle_shift_div_l; [exact Ht|]. lra.
  - apply Qle_shift_div_r; [exact Ht|]. lra.
Qed.

Lemma Zlength_of_cons {A : Type} (a : A) (l : list A) :
  Zlength_of (a :: l) = Zlength_of l + 1.
Proof. unfold Zlength_of. cbn [List.length]. lia. Qed.

Lemma Zlength_of_map {A B : Type} (f : A -> B) (l : list A) :
  Zlength_of (map f l) = Zlength_of l.
Proof. unfold Zlength_of. now rewrite length_map. Qed.

Lemma rounded_shares_error (ns : list Z) (T : Z) :
  0 < T ->
  (Qabs (Qsum (map (fun n => round4 (inject_Z n / inject_Z T)) ns)
         - inject_Z (Zsum ns) / inject_Z T)
   <= inject_Z (Zlength_of ns) * (1 # 20000))%Q.
Proof.
  intros HT.
  assert (HTq : ~ (inject_Z T == 0)%Q).
  { intros H0. assert (Hq : (0 < inject_Z T)%Q) by (now rewrite <- (Zlt_Qlt 0)).
    rewrite H0 in Hq. now apply Qlt_irrefl in Hq. }
  induction ns as [|n ns IH].
  - apply Qabs_Qle_condition. cbn [map Qsum Zsum fold_right].
    change (Zlength_of (@nil Z)) with 0. change (inject_Z 0) with 0%Q.
    assert (E : (0 / inject_Z T == 0)%Q) by (field; exact HTq).
    rewrite E. split; lra.
  - cbn [map Qsum Zsum fold_right].
    fold (Zsum ns).
    fold (Qsum (map (fun n => round4 (inject_Z n / inject_Z T)) ns)).
    rewrite Zlength_of_cons, !inject_Z_plus. change (inject_Z 1) with 1%Q.
    pose proof (round4_error (inject_Z n / inject_Z T)) as Hr.
    apply Qabs_Qle_condition in Hr, IH. apply Qabs_Qle_condition.
    assert (E : ((inject_Z n + inject_Z (Zsum ns)) / inject_Z T
                 == inject_Z n / inject_Z T + inject_Z (Zsum ns) / inject_Z T)%Q)
      by (field; exact HTq).
    rewrite E. split; lra.
Qed.

(** X8. For a (student, topic) pair of the attempt table the returned shares
    sum to 1 up to the rounding of each row: the distance is at most 0.00005
    times the number of rows of the pair. *)
Theorem error_shares_sum_bound
    (df : DataFrame) (es : list ErrorShareRow) (sid tp : string) :
  scoring.compute_student_topic_error_shares df = inr es ->
  (exists a, In a (df_rows df) /\ student_id a = sid /\ topic a = tp) ->
  (Qabs (share_sum sid tp es - 1)
   <= inject_Z (Zlength_of (share_rows_of sid tp es)) * (1 # 20000))%Q.
Proof.
  intros Hes (a & Ha & Hs & Ht). apply error_shares_rows in Hes. subst es.
  unfold share_sum, share_rows_of. rewrite filter_map_comm.
  cbn [es_student_id es_topic].
  set (P := fun k : string * string * string =>
              andb (String.eqb (fst (fst k)) sid) (String.eqb (snd (fst k)) tp)).
  set (ks := filter P (group_keys triple_dec triple_leb key3 (df_rows df))).
  set (T := Zlength_of (attempts_of_pair sid tp (df_rows df))).
  assert (HT : 0 < T).
  { apply Zlength_of_pos. intros H.
    pose proof (proj1 (filter_nil_iff _ _) H a Ha) as Hf. cbv beta in Hf.
    rewrite Hs, Ht, !String.eqb_refl in Hf. discriminate. }
  rewrite map_map. cbn [error_share].
  rewrite (map_ext_in _
             (fun k => round4 (inject_Z (Zlength_of
                                  (group_of triple_dec key3 (df_rows df) k))
                               / inject_Z T))).
  2:{ intros k Hk. apply filter_In in Hk as [_ HP]. unfold P in HP.
      apply andb_true_iff in HP as [H1 H2].
      apply String.eqb_eq in H1, H2. now rewrite H1, H2. }
  rewrite Zlength_of_map.
  pose proof (rounded_shares_error
                (map (fun k => Zlength_of (group_of triple_dec key3 (df_rows df) k)) ks)
                T HT) as Hb.
  rewrite map_map, Zlength_of_map in Hb.
  assert (Hsum : Zsum (map (fun k => Zlength_of
                              (group_of triple_dec key3 (df_rows df) k)) ks) = T).
  { rewrite (Zsum_map_ext _ (fun k => Zsum (map (fun _ => 1)
                               (group_of triple_dec key3 (df_rows df) k))))
      by (intros k _; apply Zlength_of_Zsum).
    unfold ks.
    rewrite (Zsum_partition triple_dec key3 (fun _ => 1) (df_rows df)
               (group_keys triple_dec triple_leb key3 (df_rows df)) P).
    - symmetry. apply Zlength_of_Zsum.
    - apply group_keys_NoDup.
    - intros r Hr. apply group_keys_In. eauto. }
  rewrite Hsum in Hb.
  assert (E : (inject_Z T / inject_Z T == 1)%Q).
  { field. intros H0.
    assert (Hq : (0 < inject_Z T)%Q) by (now rewrite <- (Zlt_Qlt 0)).
    rewrite H0 in Hq. now apply Qlt_irrefl in Hq. }
  rewrite E in Hb. exact Hb.
Qed.

Lemma error_shares_sum_bound_witness :
  match scoring.compute_student_topic_error_shares samples.three_error_types with
  | inr es =>
      (Qabs (share_sum "s1" "A" es - 1)
       <= inject_Z (Zlength_of (share_rows_of "s1" "A" es)) * (1 # 20000))%Q
  | inl _ => False
  end.
Proof.
  destruct (scoring.compute_student_topic_error_shares samples.three_error_types)
    as [e|es] eqn:Ees; [vm_compute in Ees; discriminate|].
  apply (error_shares_sum_bound samples.three_error_types es "s1" "A" Ees).
  eexists. split; [left; reflexivity|]. split; reflexivity.
Defined.

Lemma error_shares_unit_interval_witness :
  match scoring.compute_student_topic_error_shares samples.three_error_types with
  | inr (r :: _) => (0 <= error_share r <= 1)%Q
  | _ => False
  end.
Proof.
  destruct (scoring.compute_student_topic_error_shares samples.three_error_types)
    as [e|[|r es]] eqn:Ees; try (vm_compute in Ees; discriminate).
  apply (error_shares_unit_interval samples.three_error_types (r :: es) r Ees).
  now left.
Defined.

Lemma error_shares_one_row_per_triple_witness :
  match scoring.compute_student_topic_error_shares samples.three_error_types with
  | inr es =>
      NoDup (map (fun r => (es_student_id r, es_topic r, es_error_type r)) es)
  | inl _ => False
  end.
Proof.
  destruct (scoring.compute_student_topic_error_shares samples.three_error_types)
    as [e|es] eqn:Ees; [vm_compute in Ees; discriminate|].
  apply (error_shares_one_row_per_triple samples.three_error_types es Ees).
Defined.

(** ** Further properties of profiling *)

Lemma label_topic_cases (acc : Q) :
  (profiling._label_topic acc = profiling.strength /\ (80 # 100 <= acc)%Q) \/
  (profiling._label_topic acc = profiling.weakness /\ (acc <= 55 # 100)%Q) \/
  (profiling._label_topic acc = profiling.neutral /\
   (55 # 100 < acc)%Q /\ (acc < 80 # 100)%Q).
Proof.
  unfold profiling._label_topic, config.STRENGTH_ACCURACY_THRESHOLD,
    config.WEAKNESS_ACCURACY_THRESHOLD.
  destruct (Qle_bool (80 # 100) acc) eqn:E1.
  - left. split; [reflexivity|now apply Qle_bool_iff].
  - right. apply Qle_bool_false in E1.
    destruct (Qle_bool acc (55 # 100)) eqn:E2.
    + left. split; [reflexivity|now apply Qle_bool_iff].
    + right. apply Qle_bool_false in E2. auto.
Qed.

Lemma filter_three_perm {A : Type} (f1 f2 f3 : A -> bool) (l : list A) :
  (forall a, (f1 a = true /\ f2 a = false /\ f3 a = false) \/
             (f1 a = false /\ f2 a = true /\ f3 a = false) \/
             (f1 a = false /\ f2 a = false /\ f3 a = true)) ->
  Permutation (filter f1 l ++ filter f2 l ++ filter f3 l) l.
Proof.
  intros H. induction l as [|a l IH]; [apply perm_nil|]. simpl.
  destruct (H a) as [(-> & -> & ->)|[(-> & -> & ->)|(-> & -> & ->)]].
  - simpl. now apply perm_skip.
  - apply Permutation_sym. eapply perm_trans;
      [apply perm_skip, Permutation_sym, IH|]. apply Permutation_middle.
  - apply Permutation_sym. eapply perm_trans;
      [apply perm_skip, Permutation_sym, IH|].
    rewrite app_assoc. eapply perm_trans; [apply Permutation_middle|].
    now rewrite <- app_assoc.
Qed.

Lemma label_exclusive (l : profiling.label) :
  (profiling.label_eqb l profiling.strength = true /\
   profiling.label_eqb l profiling.neutral = false /\
   profiling.label_eqb l profiling.weakness = false) \/
  (profiling.label_eqb l profiling.strength = false /\
   profiling.label_eqb l profiling.neutral = true /\
   profiling.label_eqb l profiling.weakness = false) \/
  (profiling.label_eqb l profiling.strength = false /\
   profiling.label_eqb l profiling.neutral = false /\
   profiling.label_eqb l profiling.weakness = true).
Proof. destruct l; simpl; auto. Qed.

(** What a successful call returns, list by list. *)
Lemma build_student_profile_lists
    (sid : string) (scores : list TopicScoreRow) (overall : list OverallRow)
    (p : profiling.StudentProfile) :
  profiling.build_student_profile sid scores overall = inr p ->
  let tps := map profiling.topic_profile_of_row (topic_rows_of sid scores) in
  topic_rows_of sid scores <> [] /\
  profiling.strengths p
  = stable_sort profiling.acc_desc
      (filter (fun t => profiling.label_eqb (profiling.tp_label t) profiling.strength) tps) /\
  profiling.weaknesses p
  = stable_sort profiling.acc_asc
      (filter (fun t => profiling.label_eqb (profiling.tp_label t) profiling.weakness) tps) /\
  profiling.neutrals p
  = stable_sort profiling.acc_desc
      (filter (fun t => profiling.label_eqb (profiling.tp_label t) profiling.neutral) tps) /\
  profiling.sp_overall_level p
  = profiling._accuracy_to_level (profiling.sp_overall_accuracy p).
Proof.
  unfold profiling.build_student_profile, topic_rows_of.
  destruct (filter _ overall) as [|row0 rows]; [discriminate|].
  destruct (filter _ scores) as [|t0 ts]; [discriminate|].
  intros H. inversion H; subst; clear H.
  cbn [profiling.weaknesses profiling.strengths profiling.neutrals
       profiling.sp_overall_level profiling.sp_overall_accuracy].
  repeat split; try reflexivity. discriminate.
Qed.

(** X9. The three lists of a profile hold every topic row of the student
    exactly once: together they are a permutation of the student's rows of
    the topic-score table, turned into topic profiles. *)
Theorem build_student_profile_partition
    (sid : string) (scores : list TopicScoreRow) (overall : list OverallRow)
    (p : profiling.StudentProfile) :
  profiling.build_student_profile sid scores overall = inr p ->
  Permutation
    (profiling.strengths p ++ profiling.neutrals p ++ profiling.weaknesses p)
    (map profiling.topic_profile_of_row (topic_rows_of sid scores)).
Proof.
  intros H. apply build_student_profile_lists in H. cbv zeta in H.
  destruct H as (_ & -> & -> & -> & _).
  eapply perm_trans; [|apply filter_three_perm
    with (f1 := fun t => profiling.label_eqb (profiling.tp_label t) profiling.strength)
         (f2 := fun t => profiling.label_eqb (profiling.tp_label t) profiling.neutral)
         (f3 := fun t => profiling.label_eqb (profiling.tp_label t) profiling.weakness)].
  - repeat apply Permutation_app; apply Permutation_sym, stable_sort_perm.
  - intros a. apply label_exclusive.
Qed.

Lemma In_stable_sort {A : Type} (leb : A -> A -> bool) (x : A) (l : list A) :
  In x (stable_sort leb l) <-> In x l.
Proof.
  split; apply Permutation_in; [apply Permutation_sym|]; apply stable_sort_perm.
Qed.

(** X10. In a profile every strength has accuracy at least 0.80, every
    weakness at most 0.55 and every neutral strictly between the two; the
    level of each topic and the overall level are those of
    [_accuracy_to_level] at the respective accuracy. *)
Theorem build_student_profile_thresholds
    (sid : string) (scores : list TopicScoreRow) (overall : list OverallRow)
    (p : profiling.StudentProfile) :
  profiling.build_student_profile sid scores overall = inr p ->
  (forall t, In t (profiling.strengths p) ->
             profiling.tp_label t = profiling.strength /\
             (80 # 100 <= profiling.tp_accuracy t)%Q) /\
  (forall t, In t (profiling.weaknesses p) ->
             profiling.tp_label t = profiling.weakness /\
             (profiling.tp_accuracy t <= 55 # 100)%Q) /\
  (forall t, In t (profiling.neutrals p) ->
             profiling.tp_label t = profiling.neutral /\
             (55 # 100 < profiling.tp_accuracy t)%Q /\
             (profiling.tp_accuracy t < 80 # 100)%Q) /\
  (forall t, In t (profiling.strengths p ++ profiling.neutrals p
                     ++ profiling.weaknesses p) ->
             profiling.tp_level t
             = profiling._accuracy_to_level (profiling.tp_accuracy t)) /\
  profiling.sp_overall_level p
  = profiling._accuracy_to_level (profiling.sp_overall_accuracy p).
Proof.
  intros H. apply build_student_profile_lists in H. cbv zeta in H.
  destruct H as (_ & Hs & Hw & Hn & Hl).
  assert (Hrow : forall t lab,
             In t (filter (fun t => profiling.label_eqb (profiling.tp_label t) lab)
                          (map profiling.topic_profile_of_row
                               (topic_rows_of sid scores))) ->
             profiling.tp_label t = lab /\
             profiling.tp_label t = profiling._label_topic (profiling.tp_accuracy t) /\
             profiling.tp_level t
             = profiling._accuracy_to_level (profiling.tp_accuracy t)).
  { intros t lab Ht. apply filter_In in Ht as [Ht Hlab].
    apply in_map_iff in Ht as (r & <- & _). split; [|split; reflexivity].
    revert Hlab. cbn [profiling.topic_profile_of_row profiling.tp_label].
    destruct (profiling._label_topic _), lab; simpl; congruence. }
  rewrite Hs, Hw, Hn.
  split; [|split; [|split; [|split]]].
  - intros t Ht. apply In_stable_sort, Hrow in Ht as (Hlab & Hacc & _).
    split; [exact Hlab|]. rewrite Hlab in Hacc.
    destruct (label_topic_cases (profiling.tp_accuracy t))
      as [[E H1]|[[E H1]|[E H1]]]; congruence || (try exact H1).
  - intros t Ht. apply In_stable_sort, Hrow in Ht as (Hlab & Hacc & _).
    split; [exact Hlab|]. rewrite Hlab in Hacc.
    destruct (label_topic_cases (profiling.tp_accuracy t))
      as [[E H1]|[[E H1]|[E H1]]]; congruence || (try exact H1).
  - intros t Ht. apply In_stable_sort, Hrow in Ht as (Hlab & Hacc & _).
    split; [exact Hlab|]. rewrite Hlab in Hacc.
    destruct (label_topic_cases (profiling.tp_accuracy t))
      as [[E H1]|[[E H1]|[E H1]]]; congruence || (try exact H1).
  - intros t Ht. rewrite !in_app_iff in Ht.
    destruct Ht as [Ht|[Ht|Ht]]; apply In_stable_sort, Hrow in Ht; tauto.
  - exact Hl.
Qed.

(** The configured bands, read as a case analysis on the accuracy. *)
Lemma accuracy_to_level_cases (acc : Q) :
  (profiling._accuracy_to_level acc = config.beginner /\
   (0 <= acc)%Q /\ (acc < 50 # 100)%Q) \/
  (profiling._accuracy_to_level acc = config.intermediate /\
   ((acc < 0)%Q \/ ((50 # 100 <= acc)%Q /\ (acc < 75 # 100)%Q) \/
    (101 # 100 <= acc)%Q)) \/
  (profiling._accuracy_to_level acc = config.advanced /\
   (75 # 100 <= acc)%Q /\ (acc < 101 # 100)%Q).
Proof.
  unfold profiling._accuracy_to_level, config.LEVEL_BANDS,
    profiling.level_in_bands, profiling.in_band.
  destruct (Qle_bool (0 # 100) acc) eqn:E0;
    [apply Qle_bool_iff in E0|apply Qle_bool_false in E0];
  destruct (Qle_bool (50 # 100) acc) eqn:E1;
    [apply Qle_bool_iff in E1|apply Qle_bool_false in E1
    |apply Qle_bool_iff in E1|apply Qle_bool_false in E1];
  destruct (Qle_bool (75 # 100) acc) eqn:E2;
    try (apply Qle_bool_iff in E2); try (apply Qle_bool_false in E2);
  destruct (Qle_bool (101 # 100) acc) eqn:E3;
    try (apply Qle_bool_iff in E3); try (apply Qle_bool_false in E3);
  cbn [andb negb];
  try (left; repeat split; (reflexivity || lra));
  try (right; left; split; [reflexivity|lra]);
  try (right; right; repeat split; (reflexivity || lra));
  try (right; left; split; [reflexivity|]; first [left; lra|right; left; lra|right; right; lra]).
Qed.

(** X11. Outside the configured bands, below 0 or from 1.01 on, no band
    matches and [_accuracy_to_level] answers "intermediate". *)
Theorem accuracy_to_level_out_of_range (acc : Q) :
  (acc < 0)%Q \/ (101 # 100 <= acc)%Q ->
  profiling._accuracy_to_level acc = config.intermediate.
Proof.
  intros H.
  destruct (accuracy_to_level_cases acc) as [(E & H1 & H2)|[(E & _)|(E & H1 & H2)]].
  - destruct H; lra.
  - exact E.
  - destruct H; lra.
Qed.

Lemma accuracy_to_level_out_of_range_witness :
  profiling._accuracy_to_level (-1 # 10) = config.intermediate /\
  profiling._accuracy_to_level (12 # 10) = config.intermediate.
Proof.
  split; apply accuracy_to_level_out_of_range;
    [left|right]; unfold Qlt, Qle; simpl; lia.
Defined.

(** X12. On the range the bands cover, from 0 up to 1.01, the level does not
    decrease when the accuracy grows. *)
Theorem accuracy_to_level_monotone (a b : Q) :
  (0 <= a)%Q -> (a <= b)%Q -> (b < 101 # 100)%Q ->
  level_rank (profiling._accuracy_to_level a)
  <= level_rank (profiling._accuracy_to_level b).
Proof.
  intros H0 Hab Hb.
  destruct (accuracy_to_level_cases a) as [(-> & A1 & A2)|[(-> & A)|(-> & A1 & A2)]];
  destruct (accuracy_to_level_cases b) as [(-> & B1 & B2)|[(-> & B)|(-> & B1 & B2)]];
    cbn [level_rank]; try lia; exfalso.
  - destruct A as [A|[[A A']|A]]; lra.
  - lra.
  - destruct B as [B|[[B B']|B]]; lra.
Qed.

Lemma accuracy_to_level_monotone_witness :
  level_rank (profiling._accuracy_to_level (4 # 10))
  <= level_rank (profiling._accuracy_to_level (9 # 10)).
Proof.
  apply accuracy_to_level_monotone; unfold Qlt, Qle; simpl; lia.
Defined.

Lemma build_student_profile_partition_witness :
  match profiling.build_student_profile "s1" samples.weak_scores
          [ mkOverallRow "s1" 30 (4 # 10) 40 3 ] with
  | inr p =>
      Permutation
        (profiling.strengths p ++ profiling.neutrals p ++ profiling.weaknesses p)
        (map profiling.topic_profile_of_row (topic_rows_of "s1" samples.weak_scores))
  | inl _ => False
  end.
Proof.
  destruct (profiling.build_student_profile _ _ _) as [e|p] eqn:E.
  - vm_compute in E. discriminate.
  - apply (build_student_profile_partition _ _ _ _ E).
Defined.

Lemma build_student_profile_thresholds_witness :
  match profiling.build_student_profile "s1" samples.weak_scores
          [ mkOverallRow "s1" 30 (4 # 10) 40 3 ] with
  | inr p =>
      forall t, In t (profiling.weaknesses p) ->
                profiling.tp_label t = profiling.weakness /\
                (profiling.tp_accuracy t <= 55 # 100)%Q
  | inl _ => False
  end.
Proof.
  destruct (profiling.build_student_profile _ _ _) as [e|p] eqn:E.
  - vm_compute in E. discriminate.
  - apply (build_student_profile_thresholds _ _ _ _ E).
Defined.

(** ** Further properties of the recommendations *)

Lemma error_step_adds (how : list string) (priorities : list Z) (e : string * Q) :
  recommendations.error_step (how, priorities) e
  = (how ++ rule_actions (fst e), priorities ++ rule_priority (fst e)).
Proof.
  unfold rule_actions, rule_priority, recommendations.error_step. cbn [fst snd].
  repeat (match goal with
          | |- context [String.eqb ?a ?b] => destruct (String.eqb a b)
          end; [reflexivity|]).
  cbn [fst snd]. now rewrite !app_nil_r.
Qed.

Lemma fold_error_step (l : list (string * Q)) (how : list string)
      (priorities : list Z) :
  fold_left recommendations.error_step l (how, priorities)
  = (how ++ flat_map (fun e => rule_actions (fst e)) l,
     priorities ++ flat_map (fun e => rule_priority (fst e)) l).
Proof.
  revert how priorities. induction l as [|e l IH]; intros how priorities.
  - simpl. now rewrite !app_nil_r.
  - cbn [fold_left flat_map]. rewrite error_step_adds, IH.
    now rewrite <- !app_assoc.
Qed.

(** The three shapes a rule can have. *)
Lemma rule_cases (err : string) :
  (known_error err = false /\ urgent_error err = false /\
   rule_actions err = [] /\ rule_priority err = []) \/
  (known_error err = true /\ urgent_error err = true /\
   rule_actions err <> [] /\ rule_priority err = [1]) \/
  (known_error err = true /\ urgent_error err = false /\
   rule_actions err <> [] /\ rule_priority err = [2]).
Proof.
  unfold known_error, urgent_error, rule_actions, rule_priority,
    recommendations.error_step. cbn [fst snd].
  destruct (String.eqb (recommendations.lower err) "segno") eqn:E1;
    [apply String.eqb_eq in E1; try rewrite E1; right; left;
     repeat split; discriminate|].
  destruct (String.eqb (recommendations.lower err) "algebra") eqn:E2;
    [apply String.eqb_eq in E2; try rewrite E2; right; left;
     repeat split; discriminate|].
  destruct (String.eqb (recommendations.lower err) "formula") eqn:E3;
    [apply String.eqb_eq in E3; try rewrite E3; right; right;
     repeat split; discriminate|].
  destruct (String.eqb (recommendations.lower err) "concetto") eqn:E4;
    [apply String.eqb_eq in E4; try rewrite E4; right; left;
     repeat split; discriminate|].
  destruct (String.eqb (recommendations.lower err) "distrazione") eqn:E5;
    [apply String.eqb_eq in E5; try rewrite E5; right; right;
     repeat split; discriminate|].
  left. repeat split.
Qed.

Lemma fold_min_spec (ps : list Z) (p : Z) :
  In (fold_left Z.min ps p) (p :: ps) /\
  forall q, In q (p :: ps) -> fold_left Z.min ps p <= q.
Proof.
  revert p. induction ps as [|a ps IH]; intros p; cbn [fold_left].
  - split; [now left|]. intros q [<-|[]]. lia.
  - destruct (IH (Z.min p a)) as [Hin Hle]. split.
    + destruct Hin as [E|Hin].
      * rewrite <- E. destruct (Z.min_spec p a) as [[_ ->]|[_ ->]];
          [now left|right; now left].
      * right; now right.
    + intros q [<-|[<-|Hq]].
      * specialize (Hle _ (or_introl eq_refl)). lia.
      * specialize (Hle _ (or_introl eq_refl)). lia.
      * apply Hle. now right.
Qed.

Lemma min_priority_one_or_two (ps : list Z) :
  ps <> [] -> (forall q, In q ps -> q = 1 \/ q = 2) ->
  (recommendations.min_priority ps = 1 \/ recommendations.min_priority ps = 2) /\
  (recommendations.min_priority ps = 1 <-> In 1 ps).
Proof.
  intros Hne Hall. destruct ps as [|p ps]; [congruence|].
  cbn [recommendations.min_priority].
  destruct (fold_min_spec ps p) as [Hin Hle]. split.
  - now apply Hall.
  - split.
    + intros E. now rewrite <- E.
    + intros H1. specialize (Hle 1 H1). destruct (Hall _ Hin); lia.
Qed.

(** The de-duplication keeps each action once, at its first place. *)
Lemma dedup_loop_spec (hs seen dedup : list string) :
  (forall x, In x seen <-> In x dedup) -> NoDup dedup ->
  NoDup (recommendations.dedup_loop hs seen dedup) /\
  (forall x, In x (recommendations.dedup_loop hs seen dedup)
             <-> In x dedup \/ In x hs) /\
  (NoDup (dedup ++ hs) -> recommendations.dedup_loop hs seen dedup = dedup ++ hs).
Proof.
  revert seen dedup. induction hs as [|h hs IH]; intros seen dedup Hseen Hnd.
  - cbn [recommendations.dedup_loop]. split; [exact Hnd|]. split.
    + intros x. simpl. tauto.
    + intros _. now rewrite app_nil_r.
  - cbn [recommendations.dedup_loop].
    destruct (existsb (String.eqb h) seen) eqn:E.
    + apply existsb_exists in E as (y & Hy & Heq).
      apply String.eqb_eq in Heq. subst y.
      destruct (IH seen dedup Hseen Hnd) as (H1 & H2 & H3).
      split; [exact H1|]. split.
      * intros x. rewrite H2. simpl. split; [tauto|].
        intros [Hx|[<-|Hx]]; auto. left. now apply Hseen.
      * intros Hnd'. exfalso. apply NoDup_remove_2 in Hnd'.
        apply Hnd'. apply in_or_app. left. now apply Hseen.
    + assert (Hnot : ~ In h dedup).
      { intros Hin. apply Hseen in Hin.
        assert (Ht : existsb (String.eqb h) seen = true).
        { apply existsb_exists. exists h. split; [exact Hin|apply String.eqb_refl]. }
        congruence. }
      destruct (IH (h :: seen) (dedup ++ [h])) as (H1 & H2 & H3).
      * intros x. rewrite in_app_iff. simpl. rewrite Hseen. tauto.
      * apply NoDup_app; [exact Hnd|repeat constructor; auto|].
        intros x Hx [<-|[]]. contradiction.
      * split; [exact H1|]. split.
        -- intros x. rewrite H2, in_app_iff. simpl. tauto.
        -- intros Hnd'. rewrite <- app_assoc in H3. apply H3. exact Hnd'.
Qed.

Lemma dedup_loop_start (hs : list string) :
  NoDup (recommendations.dedup_loop hs [] []) /\
  (forall x, In x (recommendations.dedup_loop hs [] []) <-> In x hs) /\
  (NoDup hs -> recommendations.dedup_loop hs [] [] = hs).
Proof.
  destruct (dedup_loop_spec hs [] []) as (H1 & H2 & H3);
    [tauto|constructor|].
  split; [exact H1|]. split; [|exact H3].
  intros x. rewrite H2. simpl. tauto.
Qed.

Section RecommendTopic.
Variable sid : string.
Variable errors : list ErrorShareRow.
Variable r : TopicScoreRow.

Let tops : list (string * Q) :=
  recommendations._top_error_types_for_topic sid (ts_topic r) errors 2.
Let acts : list string := flat_map (fun e => rule_actions (fst e)) tops.
Let prios : list Z := flat_map (fun e => rule_priority (fst e)) tops.
Let slow : bool := negb (Qle_bool (topic_avg_time_seconds r) (120 # 1)).

(** The two lists the loop body has built before it de-duplicates. *)
Lemma recommend_topic_fields :
  recommendations.how (recommendations.recommend_topic sid errors r)
  = recommendations.dedup_loop
      ((match acts with [] => generic_drill | _ :: _ => acts end)
         ++ (if slow then [timed_drill] else [])) [] [] /\
  recommendations.priority (recommendations.recommend_topic sid errors r)
  = recommendations.min_priority
      ((match acts with [] => prios ++ [2] | _ :: _ => prios end)
         ++ (if slow then [2] else [])).
Proof.
  unfold recommendations.recommend_topic.
  rewrite fold_error_step. cbn [app].
  fold tops. fold acts. fold prios. fold slow.
  destruct acts; destruct slow; cbn [recommendations.how recommendations.priority];
    rewrite ?app_nil_r; split; reflexivity.
Qed.

Lemma acts_nil_iff :
  acts = [] <-> forall e, In e tops -> known_error (fst e) = false.
Proof.
  unfold acts. induction tops as [|e l IH]; cbn [flat_map].
  - split; [intros _ e []|reflexivity].
  - destruct (rule_cases (fst e)) as [(K & _ & A & _)|[(K & _ & A & _)|(K & _ & A & _)]].
    + rewrite A. cbn [app]. rewrite IH. split.
      * intros H e' [<-|He']; auto.
      * intros H e' He'. apply H. now right.
    + split.
      * intros H. apply app_eq_nil in H as [H _]. contradiction.
      * intros H. specialize (H e (or_introl eq_refl)). congruence.
    + split.
      * intros H. apply app_eq_nil in H as [H _]. contradiction.
      * intros H. specialize (H e (or_introl eq_refl)). congruence.
Qed.

Lemma prios_spec :
  (forall q, In q prios -> q = 1 \/ q = 2) /\
  (In 1 prios <-> exists e, In e tops /\ urgent_error (fst e) = true) /\
  (acts = [] <-> prios = []).
Proof.
  unfold prios, acts. induction tops as [|e l IH]; cbn [flat_map].
  - split; [intros q []|]. split; [|tauto].
    split; [intros []|intros (e & [] & _)].
  - destruct IH as (IH1 & IH2 & IH3).
    destruct (rule_cases (fst e))
      as [(_ & U & A & P)|[(_ & U & A & P)|(_ & U & A & P)]]; rewrite P.
    + rewrite A. cbn [app]. split; [exact IH1|]. split; [|exact IH3].
      rewrite IH2. split.
      * intros (e' & He' & Hu). exists e'. split; [now right|exact Hu].
      * intros (e' & [<-|He'] & Hu); [congruence|]. eauto.
    + split; [intros q [<-|Hq]; auto|]. split.
      * split; [intros _; exists e; split; [now left|exact U]|intros _; now left].
      * split; [intros H; apply app_eq_nil in H as [H _]; contradiction
               |discriminate].
    + split; [intros q [<-|Hq]; auto|]. split.
      * cbn [app In]. rewrite IH2. split.
        -- intros [H|(e' & He' & Hu)]; [discriminate|].
           exists e'. split; [now right|exact Hu].
        -- intros (e' & [<-|He'] & Hu); [congruence|]. right. eauto.
      * split; [intros H; apply app_eq_nil in H as [H _]; contradiction
               |discriminate].
Qed.

Lemma timed_drill_not_rule :
  ~ In timed_drill acts /\ ~ In timed_drill generic_drill.
Proof.
  split.
  - unfold acts. induction tops as [|e l IH]; cbn [flat_map]; [tauto|].
    rewrite in_app_iff. intros [H|H]; [|contradiction].
    revert H. unfold rule_actions, recommendations.error_step. cbn [fst snd].
    repeat (match goal with
            | |- context [String.eqb ?a ?b] => destruct (String.eqb a b)
            end; [cbn; intros [H|[H|[]]]; discriminate|]).
    cbn. tauto.
  - cbn. intros [H|[H|[]]]; discriminate.
Qed.
End RecommendTopic.

Lemma recommend_topic_well_formed
    (sid : string) (errors : list ErrorShareRow) (r : TopicScoreRow) :
  let rec := recommendations.recommend_topic sid errors r in
  (recommendations.priority rec = 1 \/ recommendations.priority rec = 2) /\
  recommendations.how rec <> [] /\
  NoDup (recommendations.how rec).
Proof.
  cbv zeta. destruct (recommend_topic_fields sid errors r) as [Hh Hp].
  destruct (prios_spec sid errors r) as (P1 & _ & P3).
  rewrite Hh, Hp. clear Hh Hp. split; [|split].
  - apply min_priority_one_or_two.
    + destruct (flat_map (fun e => rule_actions (fst e)) _);
        [intros H; apply app_eq_nil in H as [H _];
         apply app_eq_nil in H as [_ H]; discriminate|].
      intros H. apply app_eq_nil in H as [H _].
      apply P3 in H. discriminate.
    + intros q Hq. apply in_app_iff in Hq as [Hq|Hq].
      * destruct (flat_map (fun e => rule_actions (fst e)) _).
        -- apply in_app_iff in Hq as [Hq|[<-|[]]]; auto.
        -- auto.
      * destruct (negb _); [destruct Hq as [<-|[]]; auto|destruct Hq].
  - intros H.
    match type of H with
    | recommendations.dedup_loop ?L [] [] = [] =>
        destruct (dedup_loop_start L) as (_ & Hin & _);
        assert (HL : exists x, In x L)
    end.
    { destruct (flat_map (fun e => rule_actions (fst e)) _) as [|a l].
      - eexists. apply in_or_app. left. left. reflexivity.
      - exists a. apply in_or_app. left. now left. }
    destruct HL as (x & Hx). apply Hin in Hx. rewrite H in Hx. destruct Hx.
  - apply dedup_loop_start.
Qed.

Lemma In_firstn_In {A : Type} (n : nat) (x : A) (l : list A) :
  In x (firstn n l) -> In x l.
Proof.
  intros H. rewrite <- (firstn_skipn n l). apply in_or_app. now left.
Qed.

Lemma In_generate_recommendations
    (sid : string) (weaknesses : list string) (errors : list ErrorShareRow)
    (scores : list TopicScoreRow) (max : Z) (rec : recommendations.Recommendation) :
  In rec (recommendations.generate_recommendations sid weaknesses errors scores max) ->
  rec = recommendations.maintain_pace \/
  exists r, In r (recommendations.sub_scores sid weaknesses scores) /\
            rec = recommendations.recommend_topic sid errors r.
Proof.
  unfold recommendations.generate_recommendations.
  destruct weaknesses as [|w ws] eqn:Ew.
  - intros [<-|[]]. now left.
  - rewrite <- Ew. intros H. right.
    apply (Permutation_in _ (Permutation_sym (stable_sort_perm _ _))) in H.
    rewrite rec_loop_processed in H. apply in_map_iff in H as (r & <- & Hr).
    exists r. split; [|reflexivity].
    unfold recommendations.processed_rows in Hr. eapply In_firstn_In; eauto.
Qed.

(** X13. Every recommendation [generate_recommendations] returns has
    priority 1 or 2, never 3, and a non-empty [how] without repeated
    actions. *)
Theorem generate_recommendations_well_formed
    (sid : string) (weaknesses : list string) (errors : list ErrorShareRow)
    (scores : list TopicScoreRow) (max : Z) (rec : recommendations.Recommendation) :
  In rec (recommendations.generate_recommendations sid weaknesses errors scores max) ->
  (recommendations.priority rec = 1 \/ recommendations.priority rec = 2) /\
  recommendations.how rec <> [] /\
  NoDup (recommendations.how rec).
Proof.
  intros H. apply In_generate_recommendations in H as [->|(r & _ & ->)].
  - split; [now right|]. split; [discriminate|].
    cbn. repeat constructor; cbn; intuition discriminate.
  - apply recommend_topic_well_formed.
Qed.

Lemma generate_recommendations_well_formed_witness :
  match recommendations.generate_recommendations "s1" [ "A"; "B"; "C" ]%string
          samples.weak_errors samples.weak_scores 5 with
  | rec :: _ =>
      (recommendations.priority rec = 1 \/ recommendations.priority rec = 2) /\
      recommendations.how rec <> [] /\
      NoDup (recommendations.how rec)
  | [] => False
  end.
Proof.
  destruct (recommendations.generate_recommendations _ _ _ _ _)
    as [|rec recs] eqn:E; [vm_compute in E; discriminate|].
  apply (generate_recommendations_well_formed "s1" [ "A"; "B"; "C" ]%string
           samples.weak_errors samples.weak_scores 5).
  rewrite E. now left.
Defined.

(** X14. The recommendation for a weak topic has priority 1 exactly when one
    of the topic's two top error types is, in any letter case, [segno],
    [algebra] or [concetto]. *)
Theorem recommend_topic_priority_urgent
    (sid : string) (errors : list ErrorShareRow) (r : TopicScoreRow) :
  recommendations.priority (recommendations.recommend_topic sid errors r) = 1
  <-> exists e,
        In e (recommendations._top_error_types_for_topic
                sid (ts_topic r) errors 2) /\
        urgent_error (fst e) = true.
Proof.
  destruct (recommend_topic_fields sid errors r) as [_ Hp].
  destruct (prios_spec sid errors r) as (P1 & P2 & P3).
  destruct (recommend_topic_well_formed sid errors r) as (Hw & _).
  rewrite <- P2. rewrite Hp in *. clear Hp.
  set (acts := flat_map (fun e => rule_actions (fst e)) _) in *.
  set (prios := flat_map (fun e => rule_priority (fst e)) _) in *.
  set (tail := if negb _ then [2] else []) in *.
  assert (Htail : forall q, In q tail -> q = 2).
  { intros q. unfold tail.
    destruct (negb _); [intros [<-|[]]; reflexivity|intros []]. }
  assert (Hne : (match acts with [] => prios ++ [2] | _ :: _ => prios end) ++ tail
                <> []).
  { destruct acts eqn:Ea.
    - intros H. apply app_eq_nil in H as [H _].
      apply app_eq_nil in H as [_ H]. discriminate.
    - intros H. apply app_eq_nil in H as [H _].
      apply P3 in H. discriminate. }
  assert (Hall : forall q,
             In q ((match acts with [] => prios ++ [2] | _ :: _ => prios end) ++ tail)
             -> q = 1 \/ q = 2).
  { intros q Hq. apply in_app_iff in Hq as [Hq|Hq]; [|right; now apply Htail].
    destruct acts; [apply in_app_iff in Hq as [Hq|[<-|[]]]|]; auto. }
  destruct (min_priority_one_or_two _ Hne Hall) as [_ Hiff].
  rewrite Hiff, in_app_iff. split.
  - intros [H|H]; [|apply Htail in H; discriminate].
    destruct acts; [apply in_app_iff in H as [H|[H|[]]]|]; auto. discriminate.
  - intros H. left. destruct acts; [apply in_or_app; now left|exact H].
Qed.

(** X15. The timed-drill action is among the actions of a topic's
    recommendation exactly when the topic's average time is above 120
    seconds. *)
Theorem recommend_topic_timed_drill
    (sid : string) (errors : list ErrorShareRow) (r : TopicScoreRow) :
  In timed_drill
     (recommendations.how (recommendations.recommend_topic sid errors r))
  <-> (120 # 1 < topic_avg_time_seconds r)%Q.
Proof.
  destruct (recommend_topic_fields sid errors r) as [Hh _].
  destruct (timed_drill_not_rule sid errors r) as [Ha Hg].
  rewrite Hh. clear Hh.
  match goal with
  | |- In _ (recommendations.dedup_loop ?L [] []) <-> _ =>
      destruct (dedup_loop_start L) as (_ & Hin & _)
  end.
  rewrite Hin, in_app_iff. clear Hin.
  rewrite <- Qle_bool_false.
  destruct (Qle_bool (topic_avg_time_seconds r) (120 # 1)); cbn [negb]; split.
  - intros [H|[]]. destruct (flat_map _ _); contradiction.
  - discriminate.
  - reflexivity.
  - intros _. right. now left.
Qed.

(** X16. When none of the topic's top error types has a rule (only [none],
    unknown types, or no error row at all), the recommendation has priority 2
    and its actions are the two generic drill steps, followed by the timed
    drill when the average time is above 120 seconds. *)
Theorem recommend_topic_generic_fallback
    (sid : string) (errors : list ErrorShareRow) (r : TopicScoreRow) :
  (forall e,
      In e (recommendations._top_error_types_for_topic sid (ts_topic r) errors 2) ->
      known_error (fst e) = false) ->
  recommendations.priority (recommendations.recommend_topic sid errors r) = 2 /\
  ((topic_avg_time_seconds r <= 120 # 1)%Q ->
   recommendations.how (recommendations.recommend_topic sid errors r)
   = generic_drill) /\
  ((120 # 1 < topic_avg_time_seconds r)%Q ->
   recommendations.how (recommendations.recommend_topic sid errors r)
   = generic_drill ++ [timed_drill]).
Proof.
  intros Hnone.
  destruct (recommend_topic_fields sid errors r) as [Hh Hp].
  destruct (prios_spec sid errors r) as (_ & _ & P3).
  apply acts_nil_iff in Hnone. pose proof (proj1 P3 Hnone) as Hprios.
  rewrite Hh, Hp, Hnone, Hprios. clear Hh Hp.
  rewrite <- Qle_bool_iff, <- Qle_bool_false.
  destruct (Qle_bool (topic_avg_time_seconds r) (120 # 1)); cbn [negb];
    split; [reflexivity| |reflexivity|]; split; intros H;
    try discriminate; reflexivity.
Qed.

Lemma recommend_topic_generic_fallback_witness :
  recommendations.priority
    (recommendations.recommend_topic "s1"
       [ mkErrorShareRow "s1" "A" "none" 1 ]
       (mkTopicScoreRow "s1" "A" 10 (3 # 10) 130 3)) = 2.
Proof.
  apply recommend_topic_generic_fallback.
  intros e [<-|[]]. reflexivity.
Defined.

(** X17. With a non-empty list of weaknesses the number of recommendations is
    the number of the student's weak-topic rows, capped at
    [max_recommendations] but never below one: the cap is tested after a
    recommendation is appended. *)
Theorem generate_recommendations_length
    (sid : string) (weaknesses : list string) (errors : list ErrorShareRow)
    (scores : list TopicScoreRow) (max : Z) :
  weaknesses <> [] ->
  List.length (recommendations.generate_recommendations
                 sid weaknesses errors scores max)
  = Nat.min (Z.to_nat (Z.max 1 max))
            (List.length (recommendations.sub_scores sid weaknesses scores)).
Proof.
  intros Hne. unfold recommendations.generate_recommendations.
  destruct weaknesses as [|w ws] eqn:Ew; [contradiction|]. rewrite <- Ew.
  rewrite <- (Permutation_length (stable_sort_perm _ _)).
  rewrite rec_loop_processed, length_map.
  unfold recommendations.processed_rows. apply length_firstn.
Qed.

Lemma generate_recommendations_length_witness :
  List.length (recommendations.generate_recommendations
                 "s1" [ "A"; "B"; "C" ]%string
                 samples.weak_errors samples.weak_scores 0) = 1%nat.
Proof.
  rewrite generate_recommendations_length; [reflexivity|discriminate].
Defined.

(** *** The top error types *)

Lemma Sorted_map {A B : Type} (f : A -> B) (R : B -> B -> Prop) (l : list A) :
  Sorted (fun a b => R (f a) (f b)) l -> Sorted R (map f l).
Proof.
  induction 1 as [|a l Hl IH Hhd]; simpl; constructor; auto.
  destruct Hhd; simpl; constructor; auto.
Qed.

Lemma StronglySorted_app_le {A : Type} (R : A -> A -> Prop) (l1 l2 : list A) :
  StronglySorted R (l1 ++ l2) ->
  forall a b, In a l1 -> In b l2 -> R a b.
Proof.
  induction l1 as [|x l1 IH]; simpl; intros Hs a b Ha Hb; [destruct Ha|].
  inversion Hs as [|? ? Hs' Hall]; subst.
  destruct Ha as [<-|Ha].
  - rewrite Forall_forall in Hall. apply Hall. apply in_or_app. now right.
  - now apply IH.
Qed.

Lemma top_error_types_unfold
    (sid tp : string) (errors : list ErrorShareRow) (k : nat) :
  recommendations._top_error_types_for_topic sid tp errors k
  = map (fun r => (es_error_type r, error_share r))
        (firstn k (stable_sort recommendations.share_desc
                               (share_rows_of sid tp errors))).
Proof.
  unfold recommendations._top_error_types_for_topic, share_rows_of.
  destruct (filter _ errors); [|reflexivity].
  simpl. now rewrite firstn_nil.
Qed.

Lemma sorted_share_desc (l : list ErrorShareRow) :
  Sorted (fun a b => (error_share b <= error_share a)%Q)
         (stable_sort recommendations.share_desc l).
Proof.
  apply Sorted_weaken with (R := fun a b => recommendations.share_desc a b = true).
  - intros a b H. now apply Qle_bool_iff.
  - apply stable_sort_sorted. intros a b. apply Qle_bool_total.
Qed.

(** X18. [_top_error_types_for_topic] returns [top_k] entries, or all the
    rows of the (student, topic) pair when there are fewer, in descending
    order of share; no row left out has a larger share than a returned
    one. *)
Theorem top_error_types_largest
    (sid tp : string) (errors : list ErrorShareRow) (k : nat) :
  let out := recommendations._top_error_types_for_topic sid tp errors k in
  let rows := share_rows_of sid tp errors in
  List.length out = Nat.min k (List.length rows) /\
  Sorted (fun a b => (snd b <= snd a)%Q) out /\
  exists rest,
    Permutation (map (fun r => (es_error_type r, error_share r)) rows)
                (out ++ rest) /\
    forall a b, In a out -> In b rest -> (snd b <= snd a)%Q.
Proof.
  cbv zeta. rewrite top_error_types_unfold.
  set (rows := share_rows_of sid tp errors).
  set (sorted := stable_sort recommendations.share_desc rows).
  set (f := fun r => (es_error_type r, error_share r)).
  split; [|split].
  - rewrite length_map, length_firstn. unfold sorted.
    now rewrite <- (Permutation_length (stable_sort_perm _ rows)).
  - apply Sorted_map. cbn [snd]. apply Sorted_firstn, sorted_share_desc.
  - exists (map f (skipn k sorted)). split.
    + rewrite <- map_app, firstn_skipn. apply Permutation_map, stable_sort_perm.
    + intros a b Ha Hb.
      apply in_map_iff in Ha as (ra & <- & Ha).
      apply in_map_iff in Hb as (rb & <- & Hb). cbn [snd f].
      assert (Hss : StronglySorted (fun a b => (error_share b <= error_share a)%Q)
                                   (firstn k sorted ++ skipn k sorted)).
      { rewrite firstn_skipn. apply Sorted_StronglySorted.
        - intros x y z Hxy Hyz. eapply Qle_trans; eauto.
        - apply sorted_share_desc. }
      exact (StronglySorted_app_le _ _ _ Hss ra rb Ha Hb).
Qed.

(** ** The report: profile and recommendations together *)



Lemma weak_topic_in_sub_scores
    (sid : string) (scores : list TopicScoreRow) (overall : list OverallRow)
    (p : profiling.StudentProfile) (t : profiling.TopicProfile) :
  profiling.build_student_profile sid scores overall = inr p ->
  In t (profiling.weaknesses p) ->
  exists r,
    In r (recommendations.sub_scores
            sid (map profiling.tp_topic (profiling.weaknesses p)) scores) /\
    ts_topic r = profiling.tp_topic t.
Proof.
  intros Hp Ht. pose proof (build_student_profile_lists _ _ _ _ Hp) as Hl.
  cbv zeta in Hl. destruct Hl as (_ & _ & Hw & _).
  pose proof Ht as Ht'. rewrite Hw in Ht'.
  apply In_stable_sort, filter_In in Ht' as [Ht' _].
  apply in_map_iff in Ht' as (r & Hr & Hin).
  exists r. split; [|now rewrite <- Hr].
  unfold recommendations.sub_scores. apply In_stable_sort, filter_In.
  split; [exact Hin|]. apply existsb_exists.
  exists (profiling.tp_topic t). split.
  - now apply in_map.
  - rewrite <- Hr. apply String.eqb_refl.
Qed.

(** X19. A report that is built always has recommendations, between one and
    five: for every weakness of the profile the engine finds the topic's row
    again. *)
Theorem report_recommendations_never_empty
    (sid : string) (scores : list TopicScoreRow) (overall : list OverallRow)
    (errors : list ErrorShareRow) (ctx : report_builder.ReportContext) :
  report_builder.build_student_report_context sid scores overall errors = inr ctx ->
  report_builder.rc_recommendations ctx <> [] /\
  (List.length (report_builder.rc_recommendations ctx) <= 5)%nat.
Proof.
  unfold report_builder.build_student_report_context. intros H.
  apply bind_inr in H as (p & Hp & H). injection H as <-.
  cbn [report_builder.rc_recommendations].
  destruct (profiling.weaknesses p) as [|t ts] eqn:Ew.
  - cbn. split; [discriminate|lia].
  - rewrite <- Ew.
    assert (Hne : map profiling.tp_topic (profiling.weaknesses p) <> [])
      by (rewrite Ew; discriminate).
    assert (Hlen : List.length
                     (recommendations.generate_recommendations sid
                        (map profiling.tp_topic (profiling.weaknesses p))
                        errors scores 5)
                   = Nat.min 5 (List.length
                                  (recommendations.sub_scores sid
                                     (map profiling.tp_topic (profiling.weaknesses p))
                                     scores))).
    { unfold recommendations.generate_recommendations.
      destruct (map profiling.tp_topic (profiling.weaknesses p)) as [|w ws] eqn:E;
        [congruence|]. rewrite <- E.
      rewrite <- (Permutation_length (stable_sort_perm _ _)).
      rewrite rec_loop_processed, length_map.
      unfold recommendations.processed_rows. apply length_firstn. }
    destruct (weak_topic_in_sub_scores sid scores overall p t Hp) as (r & Hr & _);
      [rewrite Ew; now left|].
    destruct (recommendations.sub_scores sid _ scores) as [|r0 rs] eqn:Es;
      [destruct Hr|].
    split.
    + intros H0. rewrite H0 in Hlen. cbn [List.length] in Hlen. lia.
    + rewrite Hlen. lia.
Qed.

Lemma report_recommendations_never_empty_witness :
  match report_builder.build_student_report_context "s1" samples.weak_scores
          [ mkOverallRow "s1" 30 (4 # 10) 40 3 ] samples.weak_errors with
  | inr ctx =>
      report_builder.rc_recommendations ctx <> [] /\
      (List.length (report_builder.rc_recommendations ctx) <= 5)%nat
  | inl _ => False
  end.
Proof.
  destruct (report_builder.build_student_report_context _ _ _ _) as [e|ctx] eqn:E.
  - vm_compute in E. discriminate.
  - apply (report_recommendations_never_empty _ _ _ _ _ E).
Defined.



(** X21. The CSS class of the level pill follows the overall accuracy: "bad"
    on [0, 0.50), "ok" on [0.75, 1.01) and "warn" elsewhere. *)
Theorem report_level_class
    (sid : string) (scores : list TopicScoreRow) (overall : list OverallRow)
    (errors : list ErrorShareRow) (ctx : report_builder.ReportContext) :
  report_builder.build_student_report_context sid scores overall errors = inr ctx ->
  let acc := report_builder.rc_overall_accuracy ctx in
  (report_builder.rc_level_class ctx = "bad"%string
   <-> (0 <= acc)%Q /\ (acc < 50 # 100)%Q) /\
  (report_builder.rc_level_class ctx = "ok"%string
   <-> (75 # 100 <= acc)%Q /\ (acc < 101 # 100)%Q) /\
  (report_builder.rc_level_class ctx = "warn"%string
   <-> (acc < 0)%Q \/ ((50 # 100 <= acc)%Q /\ (acc < 75 # 100)%Q)
       \/ (101 # 100 <= acc)%Q).
Proof.
  unfold report_builder.build_student_report_context. intros H.
  apply bind_inr in H as (p & Hp & H). injection H as <-.
  cbn [report_builder.rc_level_class report_builder.rc_overall_accuracy].
  pose proof (build_student_profile_lists _ _ _ _ Hp) as Hl.
  cbv zeta in Hl. destruct Hl as (_ & _ & _ & _ & ->).
  destruct (accuracy_to_level_cases (profiling.sp_overall_accuracy p))
    as [(-> & A1 & A2)|[(-> & A)|(-> & A1 & A2)]];
    cbn; repeat split; intros; try discriminate; try lra; try tauto;
    try (destruct A as [A|[[A A']|A]]; lra).
Qed.

Lemma report_level_class_witness :
  match report_builder.build_student_report_context "s1" samples.weak_scores
          [ mkOverallRow "s1" 30 (4 # 10) 40 3 ] samples.weak_errors with
  | inr ctx => report_builder.rc_level_class ctx = "bad"%string
  | inl _ => False
  end.
Proof.
  destruct (report_builder.build_student_report_context _ _ _ _) as [e|ctx] eqn:E.
  - vm_compute in E. discriminate.
  - pose proof (report_level_class _ _ _ _ _ E) as H. cbv zeta in H.
    destruct H as [H _]. apply H.
    vm_compute in E. injection E as <-. cbn. unfold Qle, Qlt. simpl. lia.
Defined.
